(** * The Discord archive import pipeline: storage service, file import,
      export checkpoints.

    A shallow embedding of
      - db/models.py and db/service.py (tables, constraints, upsert,
        insert, update, soft delete, channel query),
      - scripts/import_historical_exports.py (import of one export file and
        the loop over files),
      - scripts/batch_historical_export.py and scripts/check_export_status.py
        (last exported message identifier, "already exported" test and the
        selection of the channels to export),
    followed by the properties of the import pipeline. *)

From stdpp Require Import gmap strings list fin_maps sorting.
From Stdlib Require Import ZArith String Ascii.

(* [set_solver] clears hypotheses by name; the notice about it is noise. *)
Set Warnings "-clear-no-such-hyp".

Local Open Scope string_scope.
Local Open Scope list_scope.
Local Open Scope Z_scope.

(** ** db/models.py: the tables *)

(** A point in time.  The code stores instants and orders rows by them and
    nothing else.  The columns the database server fills from its own clock
    ([created_at], [updated_at]) are left out of the rows. *)
Definition datetime : Type := Z.

(** JSON side data ([attachments], [embeds], [reactions]) is stored as it
    comes and never looked into. *)
Definition blob : Type := string.

(** [BigInteger] and [Integer] columns hold unbounded integers here, and
    [String(n)] columns strings of any length. *)
Record Server : Type := mkServer {
  s_name : string;
  s_icon_url : option string
}.

Record Subnet : Type := mkSubnet {
  sn_name : string;
  sn_description : option string;
  sn_tags : option (list string)
}.

Record Channel : Type := mkChannel {
  c_server_id : Z;
  c_subnet_id : option Z;
  c_name : string;
  c_topic : option string;
  c_category : option string;
  c_position : option Z
}.

Record User : Type := mkUser {
  u_username : string;
  u_discriminator : option string;
  u_display_name : option string;
  u_avatar_url : option string;
  u_bot : bool
}.

Record Message : Type := mkMessage {
  m_channel_id : Z;
  m_user_id : Z;
  m_content : option string;
  m_timestamp : datetime;
  m_edited_timestamp : option datetime;
  m_deleted : bool;
  m_deleted_at : option datetime;
  m_message_type : string;
  m_mentions : option (list Z);
  m_mention_roles : option (list Z);
  m_attachments : option blob;
  m_embeds : option blob;
  m_reactions : option blob;
  m_thread_id : option Z;
  m_reference_message_id : option Z
}.

(** The stored state: one finite map per table, from the primary key to the
    rest of the row. *)
Record DB : Type := mkDB {
  servers : gmap Z Server;
  subnets : gmap Z Subnet;
  channels : gmap Z Channel;
  users : gmap Z User;
  messages : gmap Z Message
}.

Definition empty_db : DB := mkDB ∅ ∅ ∅ ∅ ∅.

Definition set_servers (f : gmap Z Server → gmap Z Server) (db : DB) : DB :=
  mkDB (f (servers db)) (subnets db) (channels db) (users db) (messages db).

Definition set_channels (f : gmap Z Channel → gmap Z Channel) (db : DB) : DB :=
  mkDB (servers db) (subnets db) (f (channels db)) (users db) (messages db).

Definition set_users (f : gmap Z User → gmap Z User) (db : DB) : DB :=
  mkDB (servers db) (subnets db) (channels db) (f (users db)) (messages db).

Definition set_messages (f : gmap Z Message → gmap Z Message) (db : DB) : DB :=
  mkDB (servers db) (subnets db) (channels db) (users db) (f (messages db)).

(** ** Exceptions and the session *)

(** The constraints of models.py whose violation the driver reports as
    [sqlalchemy.exc.IntegrityError]. *)
Inductive violation : Type :=
  | NotNullViolation
  | UniqueViolation
  | ForeignKeyViolation.

Inductive exn : Type :=
  | IntegrityError (v : violation)
  | KeyError
  | ValueError.

Inductive result (A : Type) : Type :=
  | Return (a : A)
  | Raise (e : exn).
Arguments Return {A} a.
Arguments Raise {A} e.

(** A computation on the committed store: it ends with a value or with a
    raised exception, and leaves a store behind in both cases. *)
Definition M (A : Type) : Type := DB → DB * result A.

Definition ret {A} (a : A) : M A := λ db, (db, Return a).

Definition raise {A} (e : exn) : M A := λ db, (db, Raise e).

Definition bind {A B} (m : M A) (k : A → M B) : M B := λ db,
  match m db with
  | (db', Return a) => k a db'
  | (db', Raise e) => (db', Raise e)
  end.

Declare Scope db_scope.
Delimit Scope db_scope with db.
Notation "x <- m ;; k" := (bind m (λ x, k))
  (at level 100, m at next level, right associativity) : db_scope.
Notation "m ;;; k" := (bind m (λ _, k))
  (at level 100, right associativity) : db_scope.

(** [DatabaseService.get_session]: the body works on the session; when it
    ends normally the session is committed, when it raises the session is
    rolled back and the exception goes on to the caller. *)
Definition get_session {A} (body : DB → result (DB * A)) : M A := λ db,
  match body db with
  | Return (db', a) => (db', Return a)
  | Raise e => (db, Raise e)
  end.

Definition has_row {A} (table : gmap Z A) (key : Z) : bool :=
  bool_decide (is_Some (table !! key)).

Definition has_row_opt {A} (table : gmap Z A) (key : option Z) : bool :=
  match key with
  | None => true
  | Some k => has_row table k
  end.

(** ** db/service.py: identity upserts *)

(** The INSERT of a channel row: [server_id] must name a stored server and
    a [subnet_id] that is given must name a stored subnet. *)
Definition insert_channel (channel_id : Z) (row : Channel) (db : DB)
  : result DB :=
  if has_row (servers db) (c_server_id row)
     && has_row_opt (subnets db) (c_subnet_id row)
  then Return (set_channels <[channel_id := row]> db)
  else Raise (IntegrityError ForeignKeyViolation).

(** The UPDATE of a channel row: a foreign key is checked again only when
    its column changes, and [upsert_channel] never changes [server_id]. *)
Definition update_channel (channel_id : Z) (old row : Channel) (db : DB)
  : result DB :=
  if bool_decide (c_subnet_id row = c_subnet_id old)
     || has_row_opt (subnets db) (c_subnet_id row)
  then Return (set_channels <[channel_id := row]> db)
  else Raise (IntegrityError ForeignKeyViolation).

Definition upsert_server (server_id : Z) (name : string)
    (icon_url : option string) : M Server :=
  get_session (λ db,
    let server :=
      match servers db !! server_id with
      | Some server =>
          (* server.name = name; server.icon_url = icon_url *)
          mkServer name icon_url
      | None =>
          (* Server(server_id=server_id, name=name, icon_url=icon_url) *)
          mkServer name icon_url
      end in
    Return (set_servers <[server_id := server]> db, server)).

Definition upsert_channel (channel_id server_id : Z) (name : string)
    (subnet_id : option Z) (topic category : option string)
    (position : option Z) : M Channel :=
  get_session (λ db,
    match channels db !! channel_id with
    | Some channel =>
        let channel' :=
          mkChannel (c_server_id channel) subnet_id name topic category position in
        match update_channel channel_id channel channel' db with
        | Return db' => Return (db', channel')
        | Raise e => Raise e
        end
    | None =>
        let channel :=
          mkChannel server_id subnet_id name topic category position in
        match insert_channel channel_id channel db with
        | Return db' => Return (db', channel)
        | Raise e => Raise e
        end
    end).

Definition upsert_user (user_id : Z) (username : string)
    (discriminator display_name avatar_url : option string) (bot : bool)
  : M User :=
  get_session (λ db,
    let user :=
      match users db !! user_id with
      | Some user =>
          (* every attribute of the stored object is assigned *)
          mkUser username discriminator display_name avatar_url bot
      | None =>
          mkUser username discriminator display_name avatar_url bot
      end in
    Return (set_users <[user_id := user]> db, user)).

(** ** db/service.py: messages *)

(** The dictionary handed to [insert_message], and the attributes of a
    [Message] object while it is in a session: every column but the
    identifier may be missing ([None]). *)
Record message_data : Type := mkMessageData {
  md_message_id : Z;
  md_channel_id : option Z;
  md_user_id : option Z;
  md_content : option string;
  md_timestamp : option datetime;
  md_edited_timestamp : option datetime;
  md_deleted : option bool;
  md_deleted_at : option datetime;
  md_message_type : option string;
  md_mentions : option (list Z);
  md_mention_roles : option (list Z);
  md_attachments : option blob;
  md_embeds : option blob;
  md_reactions : option blob;
  md_thread_id : option Z;
  md_reference_message_id : option Z
}.

(** The row a session object is written as: the [nullable=False] columns
    must be there, the columns with a default get it when missing. *)
Definition to_row (md : message_data) : option Message :=
  match md_channel_id md, md_user_id md, md_timestamp md with
  | Some channel_id, Some user_id, Some timestamp =>
      Some (mkMessage channel_id user_id (md_content md) timestamp
              (md_edited_timestamp md)
              (default false (md_deleted md)) (md_deleted_at md)
              (default "default" (md_message_type md))
              (md_mentions md) (md_mention_roles md)
              (md_attachments md) (md_embeds md) (md_reactions md)
              (md_thread_id md) (md_reference_message_id md))
  | _, _, _ => None
  end.

Definition of_row (message_id : Z) (row : Message) : message_data :=
  mkMessageData message_id (Some (m_channel_id row)) (Some (m_user_id row))
    (m_content row) (Some (m_timestamp row)) (m_edited_timestamp row)
    (Some (m_deleted row)) (m_deleted_at row) (Some (m_message_type row))
    (m_mentions row) (m_mention_roles row) (m_attachments row)
    (m_embeds row) (m_reactions row) (m_thread_id row)
    (m_reference_message_id row).

(** The foreign keys of a message row. *)
Definition message_refs_ok (db : DB) (row : Message) : bool :=
  has_row (channels db) (m_channel_id row) && has_row (users db) (m_user_id row).

(** [session.add(message); session.commit()]: the INSERT checks the
    not-null columns, then the primary key, then the foreign keys. *)
Definition add_message (md : message_data) (db : DB) : result (DB * Message) :=
  match to_row md with
  | None => Raise (IntegrityError NotNullViolation)
  | Some row =>
      if has_row (messages db) (md_message_id md)
      then Raise (IntegrityError UniqueViolation)
      else if message_refs_ok db row
      then Return (set_messages <[md_message_id md := row]> db, row)
      else Raise (IntegrityError ForeignKeyViolation)
  end.

Definition insert_message (message_data : message_data) : M (option Message) :=
  get_session (λ db,
    match add_message message_data db with
    | Return (db', message) => Return (db', Some message)
    | Raise (IntegrityError _) => Return (db, None)
    | Raise e => Raise e
    end).

(** One keyword argument of [update_message].  [kw_other] is a keyword that
    names no attribute of [Message] ([hasattr] is false).  Keywords naming
    the identifier or a relationship are not covered, and [deleted] and
    [message_type] are given a value, not [None]. *)
Inductive kwarg : Type :=
  | kw_channel_id (v : option Z)
  | kw_user_id (v : option Z)
  | kw_content (v : option string)
  | kw_timestamp (v : option datetime)
  | kw_edited_timestamp (v : option datetime)
  | kw_deleted (v : bool)
  | kw_deleted_at (v : option datetime)
  | kw_message_type (v : string)
  | kw_reference_message_id (v : option Z)
  | kw_other (key : string).

Definition setattr (message : message_data) (kw : kwarg) : message_data :=
  let '(mkMessageData id ch us co ts ed de da ty me mr at_ em re th rf) := message in
  match kw with
  | kw_channel_id v => mkMessageData id v us co ts ed de da ty me mr at_ em re th rf
  | kw_user_id v => mkMessageData id ch v co ts ed de da ty me mr at_ em re th rf
  | kw_content v => mkMessageData id ch us v ts ed de da ty me mr at_ em re th rf
  | kw_timestamp v => mkMessageData id ch us co v ed de da ty me mr at_ em re th rf
  | kw_edited_timestamp v => mkMessageData id ch us co ts v de da ty me mr at_ em re th rf
  | kw_deleted v => mkMessageData id ch us co ts ed (Some v) da ty me mr at_ em re th rf
  | kw_deleted_at v => mkMessageData id ch us co ts ed de v ty me mr at_ em re th rf
  | kw_message_type v => mkMessageData id ch us co ts ed de da (Some v) me mr at_ em re th rf
  | kw_reference_message_id v => mkMessageData id ch us co ts ed de da ty me mr at_ em re th v
  | kw_other _ => message
  end.

(** The UPDATE of a changed message object: not-null columns first, then
    the foreign keys whose column changed. *)
Definition update_refs_ok (db : DB) (old row : Message) : bool :=
  (bool_decide (m_channel_id row = m_channel_id old)
   || has_row (channels db) (m_channel_id row))
  && (bool_decide (m_user_id row = m_user_id old)
      || has_row (users db) (m_user_id row)).

Definition flush_message (old : Message) (md : message_data) (db : DB)
  : result (DB * Message) :=
  match to_row md with
  | None => Raise (IntegrityError NotNullViolation)
  | Some row =>
      if update_refs_ok db old row
      then Return (set_messages <[md_message_id md := row]> db, row)
      else Raise (IntegrityError ForeignKeyViolation)
  end.

Definition update_message (message_id : Z) (kwargs : list kwarg)
  : M (option Message) :=
  get_session (λ db,
    match messages db !! message_id with
    | Some message =>
        let message' := foldl setattr (of_row message_id message) kwargs in
        match flush_message message message' db with
        | Return (db', row) => Return (db', Some row)
        | Raise e => Raise e
        end
    | None => Return (db, None)
    end).

(** [utcnow] is the value [datetime.utcnow()] returns in the call. *)
Definition mark_message_deleted (message_id : Z) (utcnow : datetime) : M bool :=
  get_session (λ db,
    match messages db !! message_id with
    | Some message =>
        let message' :=
          setattr (setattr (of_row message_id message) (kw_deleted true))
                  (kw_deleted_at (Some utcnow)) in
        match flush_message message message' db with
        | Return (db', _) => Return (db', true)
        | Raise e => Raise e
        end
    | None => Return (db, false)
    end).

(** [order_by(desc(Message.timestamp))]: rows with equal timestamps come in
    the order of the table scan. *)
Definition newer_first (x y : Z * Message) : Prop :=
  m_timestamp x.2 >= m_timestamp y.2.

Global Instance newer_first_dec x y : Decision (newer_first x y).
Proof. unfold newer_first. apply _. Defined.

Definition get_messages_by_channel (db : DB) (channel_id : Z)
    (limit offset : nat) (include_deleted : bool) : list (Z * Message) :=
  let query :=
    filter (λ r, m_channel_id r.2 = channel_id) (map_to_list (messages db)) in
  let query :=
    if negb include_deleted
    then filter (λ r, m_deleted r.2 = false) query
    else query in
  take limit (drop offset (merge_sort newer_first query)).

(** ** The export document (spec, External interfaces: import input format)

    A document is taken as [json.load] returns it, with two readings
    already made: a value handed to [int(...)] is [Read z] when [int]
    returns [z] and [Unreadable] when it raises, and a timestamp string is
    what [datetime.fromisoformat] makes of it after ['Z'] became
    ['+00:00'].  A key that is absent is [None]. *)
Inductive read (A : Type) : Type :=
  | Read (a : A)
  | Unreadable.
Arguments Read {A} a.
Arguments Unreadable {A}.

Inductive tsval : Type :=
  | TsFalsy                 (* null or the empty string *)
  | TsIso (t : datetime)    (* a string [fromisoformat] reads as [t] *)
  | TsBad.                  (* a string [fromisoformat] rejects *)

Record Author : Type := mkAuthor {
  a_id : option (read Z);
  a_name : option string;
  a_discriminator : option string;
  a_nickname : option string;
  a_avatarUrl : option string;
  a_isBot : option bool
}.

Record RawMessage : Type := mkRawMessage {
  r_id : option (read Z);
  r_author : option Author;
  r_timestamp : option tsval;
  r_timestampEdited : option tsval;
  r_content : option string;
  r_type : option string;
  (* each mention with its ['id'], when it has one *)
  r_mentions : option (list (option (read Z)));
  r_attachments : option blob;
  r_embeds : option blob;
  r_reactions : option blob;
  (* ['reference']['messageId'], when both are there and truthy *)
  r_reference_messageId : option (read Z)
}.

Record ChannelInfo : Type := mkChannelInfo {
  ci_id : option (read Z);
  ci_name : option string;
  ci_topic : option string
}.

Record ExportDoc : Type := mkExportDoc {
  d_channel : option ChannelInfo;
  d_messages : option (list RawMessage)
}.

(** The content of a path: [None] when [open] or [json.load] raises. *)
Definition file : Type := option ExportDoc.

(** ** Python expressions of the import *)

Definition lift {A} (r : result A) : M A := λ db, (db, r).

Definition rbind {A B} (r : result A) (k : A → result B) : result B :=
  match r with
  | Return a => k a
  | Raise e => Raise e
  end.

(** [int(v)] *)
Definition py_int (v : read Z) : result Z :=
  match v with
  | Read z => Return z
  | Unreadable => Raise ValueError
  end.

(** [d[key]] *)
Definition subscript {A} (v : option A) : result A :=
  match v with
  | Some a => Return a
  | None => Raise KeyError
  end.

(** [[int(m['id']) for m in mentions]] *)
Fixpoint mention_ids (mentions : list (option (read Z))) : result (list Z) :=
  match mentions with
  | [] => Return []
  | m :: rest =>
      rbind (subscript m) (λ v,
      rbind (py_int v) (λ z,
      rbind (mention_ids rest) (λ zs, Return (z :: zs))))
  end.

(** [datetime.fromisoformat(s.replace('Z', '+00:00')) if s else None] *)
Definition fromisoformat (s : tsval) : result (option datetime) :=
  match s with
  | TsFalsy => Return None
  | TsIso t => Return (Some t)
  | TsBad => Raise ValueError
  end.

(** ** scripts/import_historical_exports.py *)

Definition no_author : Author := mkAuthor None None None None None None.
Definition no_channel : ChannelInfo := mkChannelInfo None None None.

(** How the body of the loop ends for one record when nothing is raised. *)
Inductive outcome : Type :=
  | Inserted       (* [imported_count += 1] *)
  | Duplicate      (* [skipped_count += 1] *)
  | NoTimestamp.   (* warning, [continue] *)

Inductive log_line : Type :=
  | warning_no_timestamp (id : option (read Z))
  | error_importing (id : option (read Z)) (e : exn).

(** The [try] block of the loop of [import_json_file] for one record. *)
Definition import_message (channel_id : Z) (msg_data : RawMessage) : M outcome :=
  (let author := default no_author (r_author msg_data) in
   author_id <- lift (py_int (default (Read 0) (a_id author))) ;;
   (upsert_user author_id (default "Unknown" (a_name author))
      (a_discriminator author) (a_nickname author) (a_avatarUrl author)
      (default false (a_isBot author)) ;;;
    let timestamp_str :=
      match r_timestamp msg_data with
      | Some v => v
      | None => default TsFalsy (r_timestampEdited msg_data)
      end in
    match timestamp_str with
    | TsFalsy => ret NoTimestamp
    | _ =>
        timestamp <- lift (fromisoformat timestamp_str) ;;
        edited_timestamp <-
          lift (fromisoformat (default TsFalsy (r_timestampEdited msg_data))) ;;
        message_id <- lift (rbind (subscript (r_id msg_data)) py_int) ;;
        mentions <- lift (mention_ids (default [] (r_mentions msg_data))) ;;
        reference_message_id <-
          lift (match r_reference_messageId msg_data with
                | Some v => rbind (py_int v) (λ z, Return (Some z))
                | None => Return None
                end) ;;
        result <- insert_message
          (mkMessageData message_id (Some channel_id) (Some author_id)
             (Some (default "" (r_content msg_data)))
             timestamp edited_timestamp None None
             (Some (default "Default" (r_type msg_data)))
             (Some mentions) None
             (Some (default "[]" (r_attachments msg_data)))
             (Some (default "[]" (r_embeds msg_data)))
             (Some (default "[]" (r_reactions msg_data)))
             None reference_message_id) ;;
        ret (match result with Some _ => Inserted | None => Duplicate end)
    end))%db.

(** The counters and the log lines of one call of [import_json_file]. *)
Record counters : Type := mkCounters {
  imported_count : nat;
  skipped_count : nat;
  logged : list log_line
}.

Definition count (c : counters) (msg_data : RawMessage) (r : result outcome)
  : counters :=
  match r with
  | Return Inserted =>
      mkCounters (S (imported_count c)) (skipped_count c) (logged c)
  | Return Duplicate =>
      mkCounters (imported_count c) (S (skipped_count c)) (logged c)
  | Return NoTimestamp =>
      mkCounters (imported_count c) (skipped_count c)
        (logged c ++ [warning_no_timestamp (r_id msg_data)])
  | Raise e =>
      mkCounters (imported_count c) (skipped_count c)
        (logged c ++ [error_importing (r_id msg_data) e])
  end.

(** [for msg_data in messages: try: ... except Exception: continue] *)
Fixpoint import_messages (channel_id : Z) (messages : list RawMessage)
    (c : counters) (db : DB) : DB * counters :=
  match messages with
  | [] => (db, c)
  | msg_data :: rest =>
      let '(db', r) := import_message channel_id msg_data db in
      import_messages channel_id rest (count c msg_data r) db'
  end.

(** What a call reports: the two counts of its last log lines, or the
    exception of the outer handler. *)
Inductive report : Type :=
  | Imported (c : counters)
  | Failed (e : exn).

Definition import_json_file (json_file : file) (server_id : Z) (db : DB)
  : DB * report :=
  match json_file with
  | None => (db, Failed ValueError)   (* [json.load] raised *)
  | Some data =>
      let channel_data := default no_channel (d_channel data) in
      match py_int (default (Read 0) (ci_id channel_data)) with
      | Raise e => (db, Failed e)
      | Return channel_id =>
          let channel_name := default "Unknown" (ci_name channel_data) in
          let messages := default [] (d_messages data) in
          match upsert_channel channel_id server_id channel_name None
                  (ci_topic channel_data) None None db with
          | (db', Raise e) => (db', Failed e)
          | (db', Return _) =>
              let '(db'', c) :=
                import_messages channel_id messages (mkCounters 0 0 []) db' in
              (db'', Imported c)
          end
      end
  end.

(** The value [import_json_file] returns. *)
Definition returned (r : report) : nat :=
  match r with
  | Imported c => imported_count c
  | Failed _ => 0%nat
  end.

(** The loop of [main] over the export files. *)
Fixpoint import_files (json_files : list file) (server_id : Z)
    (total_imported : nat) (db : DB) : DB * nat :=
  match json_files with
  | [] => (db, total_imported)
  | json_file :: rest =>
      let '(db', r) := import_json_file json_file server_id db in
      import_files rest server_id (total_imported + returned r)%nat db'
  end.

(** ** The exports directory

    [OUTPUT_DIR] holds one entry per name: a file, or a folder of files. *)
Inductive fs_entry : Type :=
  | File (content : file)
  | Dir (entries : list (string * file)).

Definition exports : Type := list (string * fs_entry).

Fixpoint lookup_entry {A} (name : string) (entries : list (string * A))
  : option A :=
  match entries with
  | [] => None
  | (n, e) :: rest => if String.eqb n name then Some e else lookup_entry name rest
  end.

(** [s.replace('/', '-').replace('\\', '-').replace(':', '-')] *)
Fixpoint sanitize (s : string) : string :=
  match s with
  | EmptyString => EmptyString
  | String c rest =>
      String (if Ascii.eqb c "/" || Ascii.eqb c "\" || Ascii.eqb c ":"
              then "-"%char else c)
             (sanitize rest)
  end.

Fixpoint ends_with (suffix s : string) : bool :=
  String.eqb s suffix
  || match s with
     | EmptyString => false
     | String _ rest => ends_with suffix rest
     end.

(** [dir.glob('*.json')] *)
Definition glob_json (entries : list (string * file)) : list (string * file) :=
  filter (λ e, ends_with ".json" e.1 = true) entries.

(** The order of [sorted] on the paths of one folder: the order of their
    names, character code by character code. *)
Definition path_le (x y : string * file) : Prop := String.leb x.1 y.1 = true.

Global Instance path_le_dec x y : Decision (path_le x y).
Proof. unfold path_le. apply _. Defined.

Definition sorted (paths : list (string * file)) : list (string * file) :=
  merge_sort path_le paths.

(** ** scripts/batch_historical_export.py *)

Definition get_last_message_id (OUTPUT_DIR : exports) (channel_name : string)
  : option (read Z) :=
  let folder_name := sanitize channel_name in
  match lookup_entry folder_name OUTPUT_DIR with
  | None => None                              (* not channel_dir.exists() *)
  | Some channel_dir =>
      let json_files :=
        sorted (glob_json (match channel_dir with
                           | Dir entries => entries
                           | File _ => []
                           end)) in
      match last json_files with
      | None => None                          (* not json_files *)
      | Some last_file =>
          match last_file.2 with
          | None => None                      (* except Exception *)
          | Some data =>
              match last (default [] (d_messages data)) with
              | Some last_message => r_id last_message
              | None => None
              end
          end
      end
  end.

(** [str.lower], on the letters A to Z. *)
Definition lower_ascii (c : ascii) : ascii :=
  let n := nat_of_ascii c in
  if (65 <=? n)%nat && (n <=? 90)%nat then ascii_of_nat (n + 32) else c.

Fixpoint lower (s : string) : string :=
  match s with
  | EmptyString => EmptyString
  | String c rest => String (lower_ascii c) (lower rest)
  end.

(** [a in b] on strings *)
Fixpoint contains (a b : string) : bool :=
  String.prefix a b
  || match b with
     | EmptyString => false
     | String _ rest => contains a rest
     end.

Definition check_already_exported (OUTPUT_DIR : exports) (channel_name : string)
  : bool :=
  existsb (λ item, contains (lower channel_name) (lower item.1)) OUTPUT_DIR.

(** One entry of config/subnets.yaml as [load_channels] returns it. *)
Record channel_entry : Type := mkChannelEntry {
  ch_name : string;
  ch_channel_id : string
}.

(** The lists the first loop of [main] fills. *)
Record selection : Type := mkSelection {
  to_export : list channel_entry;
  already_exported : list string;
  partial_exports : list string;
  skipped_forbidden : list string
}.

Definition select_channel (resume_mode : bool) (skip_list : gset string)
    (OUTPUT_DIR : exports) (sel : selection) (channel : channel_entry)
  : selection :=
  if bool_decide (ch_channel_id channel ∈ skip_list)
  then mkSelection (to_export sel) (already_exported sel) (partial_exports sel)
         (skipped_forbidden sel ++ [ch_name channel])
  else
    let is_exported := check_already_exported OUTPUT_DIR (ch_name channel) in
    if resume_mode && is_exported
    then mkSelection (to_export sel ++ [channel]) (already_exported sel)
           (partial_exports sel ++ [ch_name channel]) (skipped_forbidden sel)
    else if negb resume_mode && is_exported
    then mkSelection (to_export sel) (already_exported sel ++ [ch_name channel])
           (partial_exports sel) (skipped_forbidden sel)
    else mkSelection (to_export sel ++ [channel]) (already_exported sel)
           (partial_exports sel) (skipped_forbidden sel).

Definition select_channels (resume_mode : bool) (skip_list : gset string)
    (OUTPUT_DIR : exports) (channels : list channel_entry) : selection :=
  foldl (select_channel resume_mode skip_list OUTPUT_DIR)
        (mkSelection [] [] [] []) channels.

(** ** db/service.py: subnets *)

Definition set_subnets (f : gmap Z Subnet → gmap Z Subnet) (db : DB) : DB :=
  mkDB (servers db) (f (subnets db)) (channels db) (users db) (messages db).

(** [session.query(Subnet).filter(Subnet.name == name).first()] *)
Definition subnet_by_name (db : DB) (name : string) : option (Z * Subnet) :=
  head (filter (λ r : Z * Subnet, sn_name r.2 = name) (map_to_list (subnets db))).

(** Python's truth value of an optional string, list and integer. *)
Definition truthy_str (s : option string) : bool :=
  match s with
  | Some (String _ _) => true
  | _ => false
  end.

Definition truthy_list {A} (l : option (list A)) : bool :=
  match l with
  | Some (_ :: _) => true
  | _ => false
  end.

Definition truthy_int (z : option Z) : bool :=
  match z with
  | Some z => negb (z =? 0)
  | None => false
  end.

(** [nextval] is the identifier the sequence of [subnets.id] hands out when
    the call inserts.  The answer is the subnet with its identifier. *)
Definition upsert_subnet (name : string) (description : option string)
    (tags : option (list string)) (nextval : Z) : M (Z * Subnet) :=
  get_session (λ db,
    match subnet_by_name db name with
    | Some (id, subnet) =>
        let subnet' :=
          mkSubnet (sn_name subnet)
            (if truthy_str description then description
             else sn_description subnet)
            (if truthy_list tags then tags else sn_tags subnet) in
        Return (set_subnets <[id := subnet']> db, (id, subnet'))
    | None =>
        let subnet := mkSubnet name description tags in
        if has_row (subnets db) nextval
        then Raise (IntegrityError UniqueViolation)
        else Return (set_subnets <[nextval := subnet]> db, (nextval, subnet))
    end).

Definition get_subnet_by_name (db : DB) (name : string) : option (Z * Subnet) :=
  subnet_by_name db name.

Definition get_subnet_by_channel (db : DB) (channel_id : Z)
  : option (Z * Subnet) :=
  match channels db !! channel_id with
  | Some channel =>
      if truthy_int (c_subnet_id channel)
      then match c_subnet_id channel with
           | Some subnet_id =>
               match subnets db !! subnet_id with
               | Some subnet => Some (subnet_id, subnet)
               | None => None
               end
           | None => None
           end
      else None
  | None => None
  end.

Definition link_channel_to_subnet (channel_id : Z) (subnet_name : string)
  : M bool :=
  get_session (λ db,
    match subnet_by_name db subnet_name with
    | None => Return (db, false)
    | Some (subnet_id, _) =>
        match channels db !! channel_id with
        | None => Return (db, false)
        | Some channel =>
            let channel' :=
              mkChannel (c_server_id channel) (Some subnet_id) (c_name channel)
                (c_topic channel) (c_category channel) (c_position channel) in
            match update_channel channel_id channel channel' db with
            | Return db' => Return (db', true)
            | Raise e => Raise e
            end
        end
    end).

(** ** db/service.py: the other message queries *)

(** [Message.join(Channel).join(Subnet)]: the subnet of the channel of a
    message, when the channel is linked to one. *)
Definition subnet_of_message (db : DB) (row : Message) : option Subnet :=
  match channels db !! m_channel_id row with
  | Some channel =>
      match c_subnet_id channel with
      | Some subnet_id => subnets db !! subnet_id
      | None => None
      end
  | None => None
  end.

Definition get_messages_by_subnet (db : DB) (subnet_name : string)
    (limit offset : nat) (include_deleted : bool) : list (Z * Message) :=
  let query :=
    filter (λ r : Z * Message,
              sn_name <$> subnet_of_message db r.2 = Some subnet_name)
           (map_to_list (messages db)) in
  let query :=
    if negb include_deleted
    then filter (λ r : Z * Message, m_deleted r.2 = false) query
    else query in
  take limit (drop offset (merge_sort newer_first query)).

Definition get_messages_by_timerange (db : DB) (start_time end_time : datetime)
    (channel_id : option Z) (subnet_name : option string)
  : list (Z * Message) :=
  let query :=
    filter (λ r : Z * Message,
              m_timestamp r.2 >= start_time ∧ m_timestamp r.2 <= end_time
              ∧ m_deleted r.2 = false)
           (map_to_list (messages db)) in
  let query :=
    if truthy_int channel_id
    then filter (λ r : Z * Message, Some (m_channel_id r.2) = channel_id) query
    else query in
  let query :=
    if truthy_str subnet_name
    then filter (λ r : Z * Message,
                   sn_name <$> subnet_of_message db r.2 = subnet_name) query
    else query in
  merge_sort newer_first query.

(** ** scripts/check_export_status.py *)

Inductive export_status : Type :=
  | not_exported
  | empty_export
  | corrupted
  | complete.

(** The dictionary [get_channel_stats] returns, without the error text. *)
Record channel_stats : Type := mkStats {
  st_status : export_status;
  st_files : nat;
  st_messages : nat;
  st_last_message_id : option (read Z)
}.

(** The loop of [get_channel_stats] over the sorted files; [last_file] is
    the name of [json_files[-1]] and [n_files] is [len(json_files)]. *)
Fixpoint stats_loop (last_file : string) (n_files : nat)
    (json_files : list (string * file)) (total_messages : nat)
    (last_message_id : option (read Z)) : channel_stats :=
  match json_files with
  | [] => mkStats complete n_files total_messages last_message_id
  | json_file :: rest =>
      match json_file.2 with
      | None => mkStats corrupted n_files total_messages last_message_id
      | Some data =>
          let messages := default [] (d_messages data) in
          let total_messages := (total_messages + List.length messages)%nat in
          let last_message_id :=
            if String.eqb json_file.1 last_file
            then match last messages with
                 | Some last_message => r_id last_message
                 | None => last_message_id
                 end
            else last_message_id in
          stats_loop last_file n_files rest total_messages last_message_id
      end
  end.

Definition get_channel_stats (OUTPUT_DIR : exports) (channel_name : string)
  : channel_stats :=
  let folder_name := sanitize channel_name in
  match lookup_entry folder_name OUTPUT_DIR with
  | None => mkStats not_exported 0 0 None
  | Some channel_dir =>
      let json_files :=
        sorted (glob_json (match channel_dir with
                           | Dir entries => entries
                           | File _ => []
                           end)) in
      match last json_files with
      | None => mkStats empty_export 0 0 None
      | Some last_file =>
          stats_loop last_file.1 (List.length json_files) json_files 0 None
      end
  end.

(** The four lists [main] sorts the channels into. *)
Record status_lists : Type := mkStatusLists {
  sl_not_exported : list channel_entry;
  sl_empty : list channel_entry;
  sl_complete : list channel_entry;
  sl_corrupted : list channel_entry
}.

Definition file_channel (OUTPUT_DIR : exports) (lists : status_lists)
    (channel : channel_entry) : status_lists :=
  match st_status (get_channel_stats OUTPUT_DIR (ch_name channel)) with
  | not_exported =>
      mkStatusLists (sl_not_exported lists ++ [channel]) (sl_empty lists)
        (sl_complete lists) (sl_corrupted lists)
  | empty_export =>
      mkStatusLists (sl_not_exported lists) (sl_empty lists ++ [channel])
        (sl_complete lists) (sl_corrupted lists)
  | corrupted =>
      mkStatusLists (sl_not_exported lists) (sl_empty lists)
        (sl_complete lists) (sl_corrupted lists ++ [channel])
  | complete =>
      mkStatusLists (sl_not_exported lists) (sl_empty lists)
        (sl_complete lists ++ [channel]) (sl_corrupted lists)
  end.

Definition file_channels (OUTPUT_DIR : exports) (channels : list channel_entry)
  : status_lists :=
  foldl (file_channel OUTPUT_DIR) (mkStatusLists [] [] [] []) channels.

(** ** scripts/batch_import_all.py *)

(** [import_json_file] of the batch script: the answer is the pair
    (imported, skipped).  A file that does not load gives (0, 0); an empty
    document gives (0, 0); for any other document the statement
    [from scripts.import_historical_exports import import_export_data]
    raises [ImportError], because that module defines [import_json_file]
    and [main] only, the handler for [Exception] catches it, and the answer
    is (0, 0) again.  The service is never reached. *)
Definition batch_import_json_file (json_file : file) (db : DB)
  : DB * (nat * nat) :=
  match json_file with
  | None => (db, (0%nat, 0%nat))
  | Some data =>
      match d_channel data, d_messages data with
      | None, None => (db, (0%nat, 0%nat))
      | _, _ => (db, (0%nat, 0%nat))
      end
  end.

Record batch_totals : Type := mkBatchTotals {
  total_imported : nat;
  total_skipped : nat;
  successful_files : nat;
  failed_files : nat
}.

(** The loop of [main] of the batch script. *)
Fixpoint batch_import_files (json_files : list file) (t : batch_totals)
    (db : DB) : DB * batch_totals :=
  match json_files with
  | [] => (db, t)
  | json_file :: rest =>
      let '(db', (imported, skipped)) := batch_import_json_file json_file db in
      let ok := (0 <? imported)%nat || (0 <? skipped)%nat in
      batch_import_files rest
        (mkBatchTotals (total_imported t + imported) (total_skipped t + skipped)
           (if ok then S (successful_files t) else successful_files t)
           (if ok then failed_files t else S (failed_files t)))
        db'
  end.

(** ** scripts/batch_historical_export.py: the exports and the skip file *)

(** How the run of the export tool ends for one channel. *)
Inductive run_outcome : Type :=
  | Completed (returncode : Z) (stderr : string)
  | TimeoutExpired
  | OtherException.

(** What [export_channel] returns, without the elapsed time: whether the
    export succeeded and whether access was forbidden. *)
Definition export_channel (outcome : run_outcome) : bool * bool :=
  match outcome with
  | Completed returncode stderr =>
      if returncode =? 0 then (true, false)
      else (false, (returncode =? 1) && contains "forbidden" (lower stderr))
  | TimeoutExpired => (false, false)
  | OtherException => (false, false)
  end.

Record export_totals : Type := mkExportTotals {
  successful : nat;
  failed : nat;
  forbidden_channels : list string
}.

(** The second loop of [main]: each channel of [to_export] with the way the
    tool ended for it. *)
Fixpoint export_channels (attempts : list (channel_entry * run_outcome))
    (t : export_totals) : export_totals :=
  match attempts with
  | [] => t
  | (channel, outcome) :: rest =>
      let '(success, is_forbidden) := export_channel outcome in
      export_channels rest
        (if success
         then mkExportTotals (S (successful t)) (failed t) (forbidden_channels t)
         else mkExportTotals (successful t) (S (failed t))
                (if is_forbidden
                 then forbidden_channels t ++ [ch_channel_id channel]
                 else forbidden_channels t))
  end.

(** [str.isspace] and [str.strip], for the white space of ASCII. *)
Definition is_space (c : ascii) : bool :=
  let n := nat_of_ascii c in
  ((9 <=? n)%nat && (n <=? 13)%nat) || ((28 <=? n)%nat && (n <=? 32)%nat).

Fixpoint lstrip (s : string) : string :=
  match s with
  | EmptyString => EmptyString
  | String c rest => if is_space c then lstrip rest else s
  end.

Fixpoint rstrip (s : string) : string :=
  match s with
  | EmptyString => EmptyString
  | String c rest =>
      match rstrip rest with
      | EmptyString => if is_space c then EmptyString else String c EmptyString
      | rest' => String c rest'
      end
  end.

Definition strip (s : string) : string := rstrip (lstrip s).

(** The skip file is its text, or [None] when it is not there.  In text
    mode a line of the file ends at a line feed, and a carriage return is
    read as one; [lines] gives the lines without their ends, with an empty
    line more between a carriage return and the line feed after it, which
    the loader drops with the other empty lines. *)
Definition is_newline (c : ascii) : bool :=
  Ascii.eqb c "010" || Ascii.eqb c "013".

Fixpoint lines (text : string) : list string :=
  match text with
  | EmptyString => []
  | String c rest =>
      if is_newline c then EmptyString :: lines rest
      else match lines rest with
           | [] => [String c EmptyString]
           | line :: more => String c line :: more
           end
  end.

(** [set(line.strip() for line in f if line.strip())] *)
Definition load_skip_list (skip_list_file : option string) : gset string :=
  match skip_list_file with
  | None => ∅
  | Some text =>
      list_to_set (filter (λ l : string, l ≠ EmptyString) (strip <$> lines text))
  end.

(** [f.write(f"{channel_id}\n")] for each identifier of the list. *)
Fixpoint written (channel_ids : list string) : string :=
  match channel_ids with
  | [] => EmptyString
  | channel_id :: rest => channel_id +:+ String "010" (written rest)
  end.

(** The file after the run: opened for appending when a channel was
    forbidden, with a line for each forbidden channel that was not on the
    list the run started with. *)
Definition save_skip_list (skip_list_file : option string)
    (skip_list : gset string) (forbidden_channels : list string)
  : option string :=
  match forbidden_channels with
  | [] => skip_list_file
  | _ =>
      Some (default EmptyString skip_list_file
            +:+ written (filter (λ channel_id : string, channel_id ∉ skip_list)
                           forbidden_channels))
  end.

(** ** Notions the properties are stated with *)

(** The author identifier a record is imported under, and the row its
    [upsert_user] call writes. *)
Definition author_id_of (msg_data : RawMessage) : result Z :=
  py_int (default (Read 0) (a_id (default no_author (r_author msg_data)))).

Definition author_row (msg_data : RawMessage) : User :=
  let author := default no_author (r_author msg_data) in
  mkUser (default "Unknown" (a_name author)) (a_discriminator author)
    (a_nickname author) (a_avatarUrl author) (default false (a_isBot author)).

Definition message_id_of (msg_data : RawMessage) : result Z :=
  rbind (subscript (r_id msg_data)) py_int.

Definition timestamp_str (msg_data : RawMessage) : tsval :=
  match r_timestamp msg_data with
  | Some v => v
  | None => default TsFalsy (r_timestampEdited msg_data)
  end.

(** The dictionary the loop body hands to [insert_message]; [None] when the
    record has no timestamp. *)
Definition build_message_data (channel_id author_id : Z)
    (msg_data : RawMessage) : result (option message_data) :=
  match timestamp_str msg_data with
  | TsFalsy => Return None
  | ts =>
      rbind (fromisoformat ts) (λ timestamp,
      rbind (fromisoformat (default TsFalsy (r_timestampEdited msg_data)))
        (λ edited_timestamp,
      rbind (message_id_of msg_data) (λ message_id,
      rbind (mention_ids (default [] (r_mentions msg_data))) (λ mentions,
      rbind (match r_reference_messageId msg_data with
             | Some v => rbind (py_int v) (λ z, Return (Some z))
             | None => Return None
             end) (λ reference_message_id,
      Return (Some
        (mkMessageData message_id (Some channel_id) (Some author_id)
           (Some (default "" (r_content msg_data)))
           timestamp edited_timestamp None None
           (Some (default "Default" (r_type msg_data)))
           (Some mentions) None
           (Some (default "[]" (r_attachments msg_data)))
           (Some (default "[]" (r_embeds msg_data)))
           (Some (default "[]" (r_reactions msg_data)))
           None reference_message_id)))))))
  end.

(** A record is well formed when it carries a timestamp and everything the
    import reads from it can be read: the identifier, the author identifier,
    the timestamps, the mentions and the reference. *)
Definition well_formed (msg_data : RawMessage) : bool :=
  match author_id_of msg_data, build_message_data 0 0 msg_data with
  | Return _, Return (Some _) => true
  | _, _ => false
  end.

(** A record lacks its timestamp when neither ['timestamp'] nor the
    fall-back ['timestampEdited'] gives a non-empty string. *)
Definition lacks_timestamp (msg_data : RawMessage) : bool :=
  match timestamp_str msg_data with
  | TsFalsy => true
  | _ => false
  end.

(** The channel identifier a document is imported under. *)
Definition channel_id_of (data : ExportDoc) : result Z :=
  py_int (default (Read 0) (ci_id (default no_channel (d_channel data)))).

Definition records (data : ExportDoc) : list RawMessage :=
  default [] (d_messages data).




(** The row [upsert_user] last wrote for [user_id] while the records were
    gone through. *)
Definition last_seen_author (user_id : Z) (messages : list RawMessage)
  : option User :=
  last (omap (λ m, match author_id_of m with
                   | Return a =>
                       if bool_decide (a = user_id) then Some (author_row m)
                       else None
                   | Raise _ => None
                   end) messages).

(** A row after [mark_message_deleted] at time [t]. *)
Definition soft_deleted (row : Message) (t : datetime) : Message :=
  mkMessage (m_channel_id row) (m_user_id row) (m_content row)
    (m_timestamp row) (m_edited_timestamp row) true (Some t)
    (m_message_type row) (m_mentions row) (m_mention_roles row)
    (m_attachments row) (m_embeds row) (m_reactions row) (m_thread_id row)
    (m_reference_message_id row).

(** The [unique] constraint on [subnets.name]. *)
Definition names_unique (db : DB) : Prop :=
  ∀ i j s t,
    subnets db !! i = Some s → subnets db !! j = Some t →
    sn_name s = sn_name t → i = j.

(** A row after an edit of its text. *)
Definition edited (row : Message) (content : option string)
    (edited_timestamp : option datetime) : Message :=
  mkMessage (m_channel_id row) (m_user_id row) content (m_timestamp row)
    edited_timestamp (m_deleted row) (m_deleted_at row) (m_message_type row)
    (m_mentions row) (m_mention_roles row) (m_attachments row) (m_embeds row)
    (m_reactions row) (m_thread_id row) (m_reference_message_id row).

(** The foreign keys of models.py hold in a store: every message has its
    channel and its author, every channel its server and, when it names
    one, its subnet. *)
Definition referential_integrity (db : DB) : Prop :=
  (∀ id row, messages db !! id = Some row →
     is_Some (channels db !! m_channel_id row)
     ∧ is_Some (users db !! m_user_id row))
  ∧ (∀ id channel, channels db !! id = Some channel →
       is_Some (servers db !! c_server_id channel)
       ∧ ∀ subnet_id, c_subnet_id channel = Some subnet_id →
                      is_Some (subnets db !! subnet_id)).

(** The sorted export files of a channel, [None] when the exports
    directory has no entry of its folder name. *)
Definition channel_files (OUTPUT_DIR : exports) (channel_name : string)
  : option (list (string * file)) :=
  match lookup_entry (sanitize channel_name) OUTPUT_DIR with
  | None => None
  | Some channel_dir =>
      Some (sorted (glob_json (match channel_dir with
                               | Dir entries => entries
                               | File _ => []
                               end)))
  end.

(** The files up to the first one that does not load. *)
Fixpoint readable_prefix (json_files : list (string * file))
  : list (string * file) :=
  match json_files with
  | [] => []
  | json_file :: rest =>
      match json_file.2 with
      | Some _ => json_file :: readable_prefix rest
      | None => []
      end
  end.

(** The number of message entries of a list of files. *)
Definition message_total (json_files : list (string * file)) : nat :=
  sum_list_with
    (λ json_file : string * file,
       match json_file.2 with
       | Some data => List.length (records data)
       | None => 0%nat
       end) json_files.

Global Instance export_status_eq_dec : EqDecision export_status.
Proof. solve_decision. Defined.

(** A text that a further line can be appended to: it is empty or its last
    character ends a line. *)
Fixpoint terminated (text : string) : bool :=
  match text with
  | EmptyString => true
  | String c EmptyString => is_newline c
  | String _ rest => terminated rest
  end.

(** A character occurs in a string. *)
Fixpoint has_char (c : ascii) (s : string) : bool :=
  match s with
  | EmptyString => false
  | String x rest => Ascii.eqb x c || has_char c rest
  end.

(** A string that is read back as it is when it is written on a line of
    its own: it is not empty, has no white space at its ends and holds no
    line end. *)
Definition one_line (s : string) : Prop :=
  s ≠ EmptyString ∧ strip s = s
  ∧ has_char "010" s = false ∧ has_char "013" s = false.

(** ** Sample data

    A store as scripts/setup_db.py leaves it (the server row and nothing
    else), and export records with every field in place. *)
Definition sample_db : DB :=
  set_servers <[1 := mkServer "Bittensor Discord" None]> empty_db.

Definition sample_author (user_id : Z) (name : string) : Author :=
  mkAuthor (Some (Read user_id)) (Some name) (Some "0000") None None
    (Some false).

Definition sample_message (id user_id : Z) (name content : string)
  : RawMessage :=
  mkRawMessage (Some (Read id)) (Some (sample_author user_id name))
    (Some (TsIso (1700000000 + id))) None (Some content) (Some "Default")
    (Some []) (Some "[]") (Some "[]") (Some "[]") None.

Definition sample_file (channel_id : Z) (name : string)
    (messages : list RawMessage) : file :=
  Some (mkExportDoc
          (Some (mkChannelInfo (Some (Read channel_id)) (Some name) None))
          (Some messages)).

Definition sample_message_data (message_id channel_id user_id : Z)
    (timestamp : option datetime) : message_data :=
  mkMessageData message_id (Some channel_id) (Some user_id) (Some "hello")
    timestamp None None None (Some "Default") (Some []) None (Some "[]")
    (Some "[]") (Some "[]") None None.

(** File A holds the identifiers 1 to 100 and file B the identifiers 50 to
    150, both of channel 10; B was exported after the messages were edited
    and their author renamed. *)
Definition file_A : ExportDoc :=
  mkExportDoc (Some (mkChannelInfo (Some (Read 10)) (Some "general") None))
    (Some (map (λ id, sample_message id 7 "alice" "first wording")
               (seqZ 1 100))).

Definition file_B : ExportDoc :=
  mkExportDoc (Some (mkChannelInfo (Some (Read 10)) (Some "general") None))
    (Some (map (λ id, sample_message id 7 "alice_new" "second wording")
               (seqZ 50 101))).

(** Three records, the second without a timestamp. *)
Definition file_with_gap : ExportDoc :=
  mkExportDoc (Some (mkChannelInfo (Some (Read 10)) (Some "general") None))
    (Some [sample_message 1 7 "alice" "one";
           mkRawMessage (Some (Read 2)) (Some (sample_author 7 "alice")) None
             None (Some "two") None None None None None None;
           sample_message 3 7 "alice" "three"]).

(** * Properties *)

(** ** The storage service *)

Section service.

Implicit Types (db : DB) (row : Message) (md : message_data).

Lemma has_row_true {A} (table : gmap Z A) key :
  has_row table key = true ↔ is_Some (table !! key).
Proof. unfold has_row. apply bool_decide_eq_true. Qed.

Lemma has_row_false {A} (table : gmap Z A) key :
  has_row table key = false ↔ table !! key = None.
Proof.
  unfold has_row. rewrite bool_decide_eq_false. symmetry. apply eq_None_not_Some.
Qed.

Lemma upsert_server_eq server_id name icon_url db :
  upsert_server server_id name icon_url db
  = (set_servers <[server_id := mkServer name icon_url]> db,
     Return (mkServer name icon_url)).
Proof.
  unfold upsert_server, get_session. by destruct (servers db !! server_id).
Qed.

Lemma upsert_user_eq user_id username discriminator display_name avatar_url
    bot db :
  upsert_user user_id username discriminator display_name avatar_url bot db
  = (set_users
       <[user_id := mkUser username discriminator display_name avatar_url bot]>
       db,
     Return (mkUser username discriminator display_name avatar_url bot)).
Proof.
  unfold upsert_user, get_session. by destruct (users db !! user_id).
Qed.

Lemma upsert_channel_present channel_id server_id name subnet_id topic
    category position db old :
  channels db !! channel_id = Some old →
  has_row_opt (subnets db) subnet_id = true →
  upsert_channel channel_id server_id name subnet_id topic category position db
  = (set_channels
       <[channel_id :=
           mkChannel (c_server_id old) subnet_id name topic category position]>
       db,
     Return (mkChannel (c_server_id old) subnet_id name topic category position)).
Proof.
  intros Hold Hsub. unfold upsert_channel, get_session, update_channel.
  rewrite Hold. cbn. rewrite Hsub, orb_true_r. done.
Qed.

Lemma upsert_channel_absent channel_id server_id name subnet_id topic
    category position db :
  channels db !! channel_id = None →
  has_row (servers db) server_id = true →
  has_row_opt (subnets db) subnet_id = true →
  upsert_channel channel_id server_id name subnet_id topic category position db
  = (set_channels
       <[channel_id :=
           mkChannel server_id subnet_id name topic category position]>
       db,
     Return (mkChannel server_id subnet_id name topic category position)).
Proof.
  intros Hnone Hsrv Hsub. unfold upsert_channel, get_session, insert_channel.
  rewrite Hnone. cbn. rewrite Hsrv, Hsub. done.
Qed.

(** Whatever happens, a failed upsert leaves the store as it was. *)
Lemma upsert_channel_raise channel_id server_id name subnet_id topic
    category position db db' e :
  upsert_channel channel_id server_id name subnet_id topic category position db
  = (db', Raise e) →
  db' = db ∧ e = IntegrityError ForeignKeyViolation.
Proof.
  unfold upsert_channel, get_session, update_channel, insert_channel.
  destruct (channels db !! channel_id); cbn;
    repeat case_match; naive_solver.
Qed.





(** [insert_message] on an identifier that is stored. *)
Lemma insert_message_duplicate md db :
  is_Some (messages db !! md_message_id md) →
  insert_message md db = (db, Return None).
Proof.
  intros Hsome. apply has_row_true in Hsome.
  unfold insert_message, get_session, add_message.
  destruct (to_row md); [|done]. by rewrite Hsome.
Qed.

(** [insert_message] on a new identifier whose row passes the checks. *)
Lemma insert_message_new md row db :
  messages db !! md_message_id md = None →
  to_row md = Some row →
  message_refs_ok db row = true →
  insert_message md db
  = (set_messages <[md_message_id md := row]> db, Return (Some row)).
Proof.
  intros Hnone%has_row_false Hrow Hrefs.
  unfold insert_message, get_session, add_message.
  by rewrite Hrow, Hnone, Hrefs.
Qed.

(** [insert_message] never raises, and it returns [None] exactly when the
    INSERT violates one of the three kinds of constraint. *)
Lemma insert_message_cases md db :
  (∃ row, insert_message md db
          = (set_messages <[md_message_id md := row]> db, Return (Some row))
          ∧ messages db !! md_message_id md = None
          ∧ to_row md = Some row ∧ message_refs_ok db row = true)
  ∨ (insert_message md db = (db, Return None)
     ∧ ∃ v, add_message md db = Raise (IntegrityError v)).
Proof.
  unfold insert_message, get_session, add_message.
  destruct (to_row md) as [row|]; [|right; eauto].
  destruct (has_row (messages db) _) eqn:Hid; [right; eauto|].
  destruct (message_refs_ok db row) eqn:Hrefs; [|right; eauto].
  left. exists row. by apply has_row_false in Hid.
Qed.

End service.

(** ** Messages: insert, update, soft delete *)

Section messages.

Implicit Types (db : DB) (row : Message) (md : message_data).

Lemma to_row_of_row message_id row : to_row (of_row message_id row) = Some row.
Proof. by destruct row. Qed.

Lemma to_row_soft_deleted message_id row t :
  to_row (setattr (setattr (of_row message_id row) (kw_deleted true))
                  (kw_deleted_at (Some t)))
  = Some (soft_deleted row t).
Proof. by destruct row. Qed.

Lemma md_message_id_setattr md kw :
  md_message_id (setattr md kw) = md_message_id md.
Proof. by destruct md, kw. Qed.

Lemma mark_message_deleted_present db message_id row t :
  messages db !! message_id = Some row →
  mark_message_deleted message_id t db
  = (set_messages <[message_id := soft_deleted row t]> db, Return true).
Proof.
  intros Hrow. unfold mark_message_deleted, get_session, flush_message.
  rewrite Hrow, to_row_soft_deleted. unfold update_refs_ok. cbn.
  by rewrite !bool_decide_eq_true_2 by done.
Qed.



Lemma query_length db channel_id incl :
  let query :=
    filter (λ r : Z * Message, m_channel_id r.2 = channel_id)
      (map_to_list (messages db)) in
  (List.length (merge_sort newer_first
             (if negb incl
              then filter (λ r : Z * Message, m_deleted r.2 = false) query
              else query))
   ≤ size (messages db))%nat.
Proof.
  cbn. rewrite merge_sort_Permutation.
  transitivity (List.length (map_to_list (messages db))).
  - destruct incl; cbn.
    + apply length_filter.
    + etransitivity; apply length_filter.
  - by rewrite length_map_to_list.
Qed.

Lemma get_messages_by_channel_index db channel_id incl id row :
  messages db !! id = Some row →
  m_channel_id row = channel_id →
  (incl = true ∨ m_deleted row = false) →
  ∃ i, ∀ limit, (0 < limit)%nat →
    (id, row) ∈ get_messages_by_channel db channel_id limit i incl.
Proof.
  intros Hrow Hch Hdel.
  assert (Hin : (id, row) ∈
    merge_sort newer_first
      (if negb incl
       then filter (λ r : Z * Message, m_deleted r.2 = false)
              (filter (λ r : Z * Message, m_channel_id r.2 = channel_id)
                 (map_to_list (messages db)))
       else filter (λ r : Z * Message, m_channel_id r.2 = channel_id)
              (map_to_list (messages db)))).
  { rewrite merge_sort_Permutation.
    assert ((id, row) ∈ filter (λ r : Z * Message, m_channel_id r.2 = channel_id)
              (map_to_list (messages db))) as Hf.
    { apply list_elem_of_filter. split; [done|]. by apply elem_of_map_to_list. }
    destruct incl; cbn; [done|].
    apply list_elem_of_filter. split; [|done]. cbn.
    by destruct Hdel as [Hdel|Hdel]. }
  apply list_elem_of_lookup_1 in Hin as [i Hi].
  exists i. intros limit Hlimit. unfold get_messages_by_channel.
  apply elem_of_take. exists 0%nat. split; [|lia].
  by rewrite lookup_drop, Nat.add_0_r.
Qed.

Lemma get_messages_by_channel_first_page db channel_id incl id row limit :
  messages db !! id = Some row →
  m_channel_id row = channel_id →
  (incl = true ∨ m_deleted row = false) →
  (size (messages db) ≤ limit)%nat →
  (id, row) ∈ get_messages_by_channel db channel_id limit 0 incl.
Proof.
  intros Hrow Hch Hdel Hlimit.
  destruct (get_messages_by_channel_index db channel_id incl id row)
    as [i Hi]; [done..|].
  specialize (Hi 1%nat ltac:(lia)).
  unfold get_messages_by_channel in *.
  apply elem_of_take in Hi as (j & Hj & _). rewrite lookup_drop in Hj.
  cbn. rewrite take_ge.
  - by eapply list_elem_of_lookup_2.
  - etransitivity; [apply (query_length db channel_id incl)|done].
Qed.

End messages.

(** ** Claims about the storage service *)

(** C1.  [insert_message] documents [None] as "duplicate" and logs "already
    exists", but its handler catches every [IntegrityError]: a record whose
    identifier is not stored and whose channel is not stored either (a
    foreign-key violation), or which has no timestamp (a not-null violation),
    is answered with [None] as well, and nothing is stored. *)
Theorem insert_message_reports_any_violation_as_duplicate :
  messages sample_db !! 7 = None
  ∧ add_message (sample_message_data 7 99 1 (Some 1700000000)) sample_db
    = Raise (IntegrityError ForeignKeyViolation)
  ∧ insert_message (sample_message_data 7 99 1 (Some 1700000000)) sample_db
    = (sample_db, Return None)
  ∧ add_message (sample_message_data 7 99 1 None) sample_db
    = Raise (IntegrityError NotNullViolation)
  ∧ insert_message (sample_message_data 7 99 1 None) sample_db
    = (sample_db, Return None).
Proof. repeat split; vm_compute; reflexivity. Qed.



(** C9.  On an identifier that is not stored, [update_message] answers
    [None] and [mark_message_deleted] answers [False]; neither raises and
    the store is as before. *)
Theorem unknown_identifier_is_not_found (db : DB) (message_id : Z)
    (kwargs : list kwarg) (utcnow : datetime) :
  messages db !! message_id = None →
  update_message message_id kwargs db = (db, Return None)
  ∧ mark_message_deleted message_id utcnow db = (db, Return false).
Proof.
  intros Hnone. unfold update_message, mark_message_deleted, get_session.
  by rewrite Hnone.
Qed.

Lemma unknown_identifier_is_not_found_witness :
  update_message 5 [kw_content (Some "edited")] sample_db
  = (sample_db, Return None)
  ∧ mark_message_deleted 5 200 sample_db = (sample_db, Return false).
Proof.
  apply (unknown_identifier_is_not_found sample_db 5). reflexivity.
Defined.




(** ** The import of one record *)

Section import_message.

Implicit Types (db : DB) (msg : RawMessage).

(** The loop body in stages: read the author, write the user, build the
    dictionary, insert. *)
Lemma import_message_unfold channel_id msg db :
  import_message channel_id msg db
  = match author_id_of msg with
    | Raise e => (db, Raise e)
    | Return a =>
        let db1 := set_users <[a := author_row msg]> db in
        match build_message_data channel_id a msg with
        | Raise e => (db1, Raise e)
        | Return None => (db1, Return NoTimestamp)
        | Return (Some md) =>
            match insert_message md db1 with
            | (db2, Return (Some _)) => (db2, Return Inserted)
            | (db2, Return None) => (db2, Return Duplicate)
            | (db2, Raise e) => (db2, Raise e)
            end
        end
    end.
Proof.
  unfold import_message, author_id_of, build_message_data, author_row,
    timestamp_str, message_id_of.
  unfold bind at 1. unfold lift at 1.
  destruct (py_int _) as [a|e]; [|done].
  unfold bind at 1. rewrite upsert_user_eq. cbn zeta.
  destruct (match r_timestamp msg with Some v => v | None => _ end) eqn:Hts;
    [done| |];
    unfold bind, lift, ret, rbind; cbn [fromisoformat];
    repeat (case_match; simplify_eq/=; try done).
Qed.

Lemma build_message_data_row channel_id a msg md :
  build_message_data channel_id a msg = Return (Some md) →
  message_id_of msg = Return (md_message_id md)
  ∧ ∃ row, to_row md = Some row
           ∧ m_channel_id row = channel_id ∧ m_user_id row = a.
Proof.
  unfold build_message_data, rbind, fromisoformat.
  intros Hbuild.
  repeat (case_match; simplify_eq/=; try done); eauto.
Qed.

(** Whether the dictionary can be built does not depend on the channel and
    author identifiers put into it. *)
Lemma build_message_data_indep channel_id a channel_id' a' msg :
  match build_message_data channel_id a msg,
        build_message_data channel_id' a' msg with
  | Return (Some _), Return (Some _) => True
  | Return None, Return None => True
  | Raise e, Raise e' => e = e'
  | _, _ => False
  end.
Proof.
  unfold build_message_data, rbind, fromisoformat.
  repeat (case_match; simplify_eq/=; try done).
Qed.

Lemma build_message_data_no_timestamp channel_id a msg :
  build_message_data channel_id a msg = Return None ↔ lacks_timestamp msg = true.
Proof.
  unfold build_message_data, lacks_timestamp, rbind, fromisoformat.
  split; intros H; repeat (case_match; simplify_eq/=; try done).
Qed.


Lemma well_formed_false msg a channel_id md :
  well_formed msg = false →
  author_id_of msg = Return a →
  build_message_data channel_id a msg ≠ Return (Some md).
Proof.
  intros Hwf Ha Hbuild. unfold well_formed in Hwf. rewrite Ha in Hwf.
  pose proof (build_message_data_indep channel_id a 0 0 msg) as Hind.
  rewrite Hbuild in Hind.
  by destruct (build_message_data 0 0 msg) as [[md'|]|e'].
Qed.

(** What one pass of the loop body does to the store and how it ends. *)
Lemma import_message_spec channel_id msg db db' r :
  import_message channel_id msg db = (db', r) →
  servers db' = servers db ∧ subnets db' = subnets db
  ∧ channels db' = channels db
  ∧ users db'
    = match author_id_of msg with
      | Return a => <[a := author_row msg]> (users db)
      | Raise _ => users db
      end
  ∧ match r with
    | Return Inserted =>
        well_formed msg = true
        ∧ is_Some (channels db !! channel_id)
        ∧ ∃ id row,
            message_id_of msg = Return id
            ∧ author_id_of msg = Return (m_user_id row)
            ∧ m_channel_id row = channel_id
            ∧ messages db !! id = None
            ∧ messages db' = <[id := row]> (messages db)
    | Return Duplicate =>
        well_formed msg = true
        ∧ messages db' = messages db
        ∧ ∃ id, message_id_of msg = Return id
                ∧ (is_Some (messages db !! id)
                   ∨ channels db !! channel_id = None)
    | Return NoTimestamp =>
        well_formed msg = false ∧ messages db' = messages db
        ∧ lacks_timestamp msg = true
    | Raise e => well_formed msg = false ∧ messages db' = messages db
    end.
Proof.
  rewrite import_message_unfold.
  destruct (author_id_of msg) as [a|e] eqn:Ha.
  2:{ intros [= <- <-]. repeat split; try done.
      unfold well_formed. by rewrite Ha. }
  cbn zeta.
  destruct (build_message_data channel_id a msg) as [[md|]|e] eqn:Hbuild.
  - assert (Hwf : well_formed msg = true).
    { destruct (well_formed msg) eqn:Hwf; [done|].
      by destruct (well_formed_false msg a channel_id md). }
    destruct (build_message_data_row _ _ _ _ Hbuild)
      as (Hid & row & Hrow & Hch & Hus).
    destruct (insert_message_cases md (set_users <[a:=author_row msg]> db))
      as [(row' & -> & Hnone & Hrow' & Hrefs)|[-> (v & Hv)]].
    + intros [= <- <-]. cbn in *. simplify_eq.
      repeat split; try done.
      * unfold message_refs_ok in Hrefs. cbn in Hrefs.
        apply andb_prop in Hrefs as [Hc _]. by apply has_row_true in Hc.
      * by exists (md_message_id md), row.
    + intros [= <- <-]. cbn. repeat split; try done.
      exists (md_message_id md). split; [done|].
      unfold add_message in Hv. rewrite Hrow in Hv. cbn in Hv.
      destruct (has_row (messages db) (md_message_id md)) eqn:Hhas.
      { left. by apply has_row_true. }
      right. unfold message_refs_ok in Hv. cbn in Hv.
      rewrite Hch, Hus in Hv.
      assert (Hu : has_row (<[a:=author_row msg]> (users db)) a = true).
      { apply has_row_true. rewrite lookup_insert_eq. eauto. }
      rewrite Hu, andb_true_r in Hv.
      destruct (has_row (channels db) channel_id) eqn:Hc; [done|].
      by apply has_row_false.
  - intros [= <- <-]. cbn.
    apply build_message_data_no_timestamp in Hbuild as Hlacks.
    repeat split; try done.
    unfold well_formed. rewrite Ha.
    pose proof (build_message_data_indep channel_id a 0 0 msg) as Hind.
    rewrite Hbuild in Hind.
    by destruct (build_message_data 0 0 msg) as [[md'|]|e'].
  - intros [= <- <-]. cbn. repeat split; try done.
    unfold well_formed. rewrite Ha.
    pose proof (build_message_data_indep channel_id a 0 0 msg) as Hind.
    rewrite Hbuild in Hind.
    by destruct (build_message_data 0 0 msg) as [[md'|]|e'].
Qed.

(** A well-formed record is inserted or counted as a duplicate, by whether
    its identifier is stored. *)
Lemma import_message_well_formed channel_id msg db :
  well_formed msg = true →
  is_Some (channels db !! channel_id) →
  ∃ id db',
    message_id_of msg = Return id
    ∧ import_message channel_id msg db
      = (db', Return (if has_row (messages db) id then Duplicate else Inserted)).
Proof.
  intros Hwf Hch.
  destruct (import_message channel_id msg db) as [db' r] eqn:Hrun.
  pose proof (import_message_spec _ _ _ _ _ Hrun) as (_ & _ & _ & _ & Hr).
  destruct r as [[| |]|e].
  - destruct Hr as (_ & _ & id & row & Hid & _ & _ & Hnone & _).
    exists id, db'. split; [done|].
    apply has_row_false in Hnone. by rewrite Hnone.
  - destruct Hr as (_ & _ & id & Hid & [Hsome|Hnone]).
    + exists id, db'. split; [done|].
      apply has_row_true in Hsome. by rewrite Hsome.
    + rewrite Hnone in Hch. by destruct Hch.
  - destruct Hr as (Hwf' & _). congruence.
  - destruct Hr as (Hwf' & _). congruence.
Qed.

End import_message.

(** ** The loop over the records of a file *)

Section import_messages.

Implicit Types (db : DB) (msg : RawMessage) (c : counters).

Ltac loop_step IH Hrun :=
  let db1 := fresh "db1" in
  let r := fresh "r" in
  let Hstep := fresh "Hstep" in
  cbn [import_messages] in Hrun;
  match type of Hrun with
  | context [import_message ?ch ?m ?db] =>
      destruct (import_message ch m db) as [db1 r] eqn:Hstep;
      apply import_message_spec in Hstep;
      apply IH in Hrun
  end.

Lemma import_messages_frame channel_id msgs c db db' c' :
  import_messages channel_id msgs c db = (db', c') →
  servers db' = servers db ∧ subnets db' = subnets db
  ∧ channels db' = channels db.
Proof.
  induction msgs as [|m rest IH] in c, db |- *; [by intros [= <- <-]|].
  intros Hrun. loop_step IH Hrun.
  destruct Hrun as (-> & -> & ->).
  destruct Hstep as (-> & -> & -> & _). done.
Qed.

Lemma last_seen_author_cons a m rest :
  last_seen_author a (m :: rest)
  = match last_seen_author a rest with
    | Some u => Some u
    | None =>
        match author_id_of m with
        | Return a' => if bool_decide (a' = a) then Some (author_row m) else None
        | Raise _ => None
        end
    end.
Proof.
  unfold last_seen_author. cbn [omap list_omap].
  destruct (author_id_of m) as [a'|e]; [|by destruct (last _)].
  case_bool_decide; [|by destruct (last _)].
  rewrite last_cons. by destruct (last _).
Qed.

(** After the loop a user row is the one the last record of that author
    wrote, or the row stored before when the file has no such record. *)
Lemma import_messages_users channel_id msgs c db db' c' a :
  import_messages channel_id msgs c db = (db', c') →
  users db' !! a
  = match last_seen_author a msgs with
    | Some u => Some u
    | None => users db !! a
    end.
Proof.
  induction msgs as [|m rest IH] in c, db |- *; [by intros [= <- <-]|].
  intros Hrun. loop_step IH Hrun.
  destruct Hstep as (_ & _ & _ & Hu & _).
  rewrite Hrun, last_seen_author_cons.
  destruct (last_seen_author a rest); [done|]. rewrite Hu.
  destruct (author_id_of m) as [a'|e]; [|done].
  case_bool_decide; simplify_eq.
  - by rewrite lookup_insert_eq.
  - by rewrite lookup_insert_ne.
Qed.

(** A stored message row is never touched by the loop. *)
Lemma import_message_keeps channel_id msg db db' r id row :
  import_message channel_id msg db = (db', r) →
  messages db !! id = Some row → messages db' !! id = Some row.
Proof.
  intros Hstep%import_message_spec Hrow.
  destruct Hstep as (_ & _ & _ & _ & Hr).
  destruct r as [[| |]|e].
  - destruct Hr as (_ & _ & id' & row' & _ & _ & _ & Hnone & ->).
    rewrite lookup_insert_ne; [done|]. intros ->. congruence.
  - destruct Hr as (_ & -> & _). done.
  - destruct Hr as (_ & -> & _). done.
  - destruct Hr as (_ & ->). done.
Qed.

Lemma import_messages_keeps channel_id msgs c db db' c' id row :
  import_messages channel_id msgs c db = (db', c') →
  messages db !! id = Some row → messages db' !! id = Some row.
Proof.
  induction msgs as [|m rest IH] in c, db |- *; [by intros [= <- <-]|].
  intros Hrun Hrow. cbn [import_messages] in Hrun.
  destruct (import_message channel_id m db) as [db1 r] eqn:Hstep.
  eapply IH; [done|]. by eapply import_message_keeps.
Qed.









(** [imported_count] counts the rows the loop adds. *)
Lemma import_messages_size channel_id msgs c db db' c' :
  import_messages channel_id msgs c db = (db', c') →
  (size (messages db') + imported_count c
   = size (messages db) + imported_count c')%nat.
Proof.
  induction msgs as [|m rest IH] in c, db |- *.
  { by intros [= <- <-]. }
  intros Hrun. cbn [import_messages] in Hrun.
  destruct (import_message channel_id m db) as [db1 r] eqn:Hstep.
  pose proof (import_message_spec _ _ _ _ _ Hstep) as (_ & _ & _ & _ & Hr).
  apply IH in Hrun.
  destruct r as [[| |]|e]; cbn in Hrun.
  - destruct Hr as (_ & _ & id & row & _ & _ & _ & Hnone & Hm).
    rewrite Hm, map_size_insert_None in Hrun by done. lia.
  - destruct Hr as (_ & Hm & _). rewrite Hm in Hrun. lia.
  - destruct Hr as (_ & Hm & _). rewrite Hm in Hrun. lia.
  - destruct Hr as (_ & Hm). rewrite Hm in Hrun. lia.
Qed.

End import_messages.

(** ** The import of one file *)

Section import_json_file.

Implicit Types (db : DB) (data : ExportDoc).

Lemma upsert_channel_return channel_id server_id name subnet_id topic
    category position db db' crow :
  upsert_channel channel_id server_id name subnet_id topic category position db
  = (db', Return crow) →
  db' = set_channels <[channel_id := crow]> db
  ∧ c_name crow = name ∧ c_topic crow = topic ∧ c_subnet_id crow = subnet_id
  ∧ c_category crow = category ∧ c_position crow = position.
Proof.
  unfold upsert_channel, get_session, update_channel, insert_channel.
  destruct (channels db !! channel_id); cbn;
    repeat case_match; naive_solver.
Qed.

(** The channel upsert of the import succeeds when the server row or the
    channel row is stored. *)
Lemma upsert_channel_for_import channel_id server_id name topic db :
  is_Some (servers db !! server_id) ∨ is_Some (channels db !! channel_id) →
  ∃ crow,
    upsert_channel channel_id server_id name None topic None None db
    = (set_channels <[channel_id := crow]> db, Return crow).
Proof.
  intros Hparent.
  destruct (channels db !! channel_id) as [old|] eqn:Hold.
  - eexists. by apply upsert_channel_present.
  - destruct Hparent as [Hsrv|[? ?]]; [|done].
    eexists. apply upsert_channel_absent; [done| |done].
    by apply has_row_true.
Qed.

(** A call that ends with counters is the channel upsert followed by the
    loop. *)
Lemma import_json_file_imported data server_id db db' c :
  import_json_file (Some data) server_id db = (db', Imported c) →
  ∃ channel_id crow,
    channel_id_of data = Return channel_id
    ∧ upsert_channel channel_id server_id
        (default "Unknown" (ci_name (default no_channel (d_channel data))))
        None (ci_topic (default no_channel (d_channel data))) None None db
      = (set_channels <[channel_id := crow]> db, Return crow)
    ∧ import_messages channel_id (records data) (mkCounters 0 0 [])
        (set_channels <[channel_id := crow]> db)
      = (db', c).
Proof.
  unfold import_json_file, channel_id_of, records.
  destruct (py_int _) as [channel_id|e]; [|done].
  destruct (upsert_channel _ _ _ _ _ _ _ db) as [db0 [crow|e]] eqn:Hup; [|done].
  apply upsert_channel_return in Hup as Hdb0. destruct Hdb0 as (-> & _).
  destruct (import_messages _ _ _ _) as [db'' c''] eqn:Hloop.
  intros [= <- <-]. by exists channel_id, crow.
Qed.

Lemma import_json_file_run data server_id db channel_id :
  channel_id_of data = Return channel_id →
  is_Some (servers db !! server_id) ∨ is_Some (channels db !! channel_id) →
  ∃ db' c, import_json_file (Some data) server_id db = (db', Imported c).
Proof.
  intros Hch Hparent. unfold import_json_file.
  unfold channel_id_of in Hch. rewrite Hch.
  destruct (upsert_channel_for_import channel_id server_id
              (default "Unknown" (ci_name (default no_channel (d_channel data))))
              (ci_topic (default no_channel (d_channel data))) db Hparent)
    as [crow ->].
  destruct (import_messages _ _ _ _) as [db' c]. eauto.
Qed.




End import_json_file.

(** ** Claims about the file import *)



















(** ** The checkpoint of a channel *)

Section checkpoint.

Lemma string_compare_trans (s1 s2 s3 : string) :
  String.compare s1 s2 ≠ Gt → String.compare s2 s3 ≠ Gt →
  String.compare s1 s3 ≠ Gt.
Proof.
  revert s2 s3. induction s1 as [|a s1 IH]; intros [|b s2] [|c s3]; cbn;
    try done.
  unfold Ascii.compare.
  destruct (N.compare_spec (N_of_ascii a) (N_of_ascii b)) as [Hab|Hab|Hab],
           (N.compare_spec (N_of_ascii b) (N_of_ascii c)) as [Hbc|Hbc|Hbc],
           (N.compare_spec (N_of_ascii a) (N_of_ascii c)) as [Hac|Hac|Hac];
    try done; try lia.
  apply IH.
Qed.

Lemma leb_not_Gt (s1 s2 : string) :
  String.leb s1 s2 = true ↔ String.compare s1 s2 ≠ Gt.
Proof. unfold String.leb. by destruct (String.compare s1 s2). Qed.

Global Instance path_le_trans : Transitive path_le.
Proof.
  intros x y z. unfold path_le. rewrite !leb_not_Gt.
  apply string_compare_trans.
Qed.

Global Instance path_le_total : Total path_le.
Proof. intros x y. unfold path_le. apply String.leb_total. Qed.

(** The last path of [sorted] has the greatest name. *)
Lemma last_sorted_greatest (paths : list (string * file)) (p q : string * file) :
  last (sorted paths) = Some p → q ∈ paths → path_le q p.
Proof.
  unfold sorted. intros Hlast Hq.
  apply last_Some in Hlast as [l' Hl'].
  pose proof (StronglySorted_merge_sort path_le paths) as Hsorted.
  rewrite <- (merge_sort_Permutation path_le paths), Hl' in Hq.
  rewrite Hl' in Hsorted.
  apply elem_of_app in Hq as [Hq|Hq%list_elem_of_singleton].
  - eapply StronglySorted_app_1_elem_of; [done..|]. by apply list_elem_of_singleton.
  - subst q. unfold path_le. destruct (String.leb_total p.1 p.1); done.
Qed.

Lemma last_sorted_elem (paths : list (string * file)) (p : string * file) :
  last (sorted paths) = Some p → p ∈ paths.
Proof.
  unfold sorted. intros Hlast%last_Some_elem_of.
  by rewrite merge_sort_Permutation in Hlast.
Qed.

Lemma last_sorted_None (paths : list (string * file)) :
  last (sorted paths) = None → paths = [].
Proof.
  unfold sorted. intros Hlast.
  destruct (merge_sort path_le paths) as [|p l] eqn:Hsort.
  - apply Permutation_nil_r. by rewrite <- Hsort, merge_sort_Permutation.
  - exfalso. assert (is_Some (last (p :: l))) as [? ?]
      by by apply last_is_Some.
    congruence.
Qed.

(** With names that are unique in the folder, the last path of [sorted] is
    the entry of the greatest name. *)
Lemma last_sorted_is (entries : list (string * file)) (name : string)
    (content : file) :
  NoDup entries.*1 →
  (name, content) ∈ glob_json entries →
  (∀ other, other ∈ glob_json entries → String.leb other.1 name = true) →
  last (sorted (glob_json entries)) = Some (name, content).
Proof.
  intros Hnodup Hin Hmax.
  destruct (last (sorted (glob_json entries))) as [[g x]|] eqn:Hlast.
  - pose proof (last_sorted_greatest _ _ _ Hlast Hin) as Hle.
    pose proof (last_sorted_elem _ _ Hlast) as Hg.
    pose proof (Hmax _ Hg) as Hge. unfold path_le in Hle. cbn in Hle, Hge.
    assert (g = name) as -> by by apply String.leb_antisym.
    f_equal. f_equal.
    unfold glob_json in Hin, Hg.
    apply list_elem_of_filter in Hin as [_ Hin].
    apply list_elem_of_filter in Hg as [_ Hg].
    clear -Hnodup Hin Hg.
    induction entries as [|[n e] rest IH]; [by apply elem_of_nil in Hin|].
    cbn in Hnodup. apply NoDup_cons in Hnodup as [Hn Hrest].
    apply elem_of_cons in Hin as [Hin|Hin]; apply elem_of_cons in Hg as [Hg|Hg].
    + congruence.
    + exfalso. injection Hin as -> ->. apply Hn.
      apply list_elem_of_fmap. by exists (n, x).
    + exfalso. injection Hg as -> ->. apply Hn.
      apply list_elem_of_fmap. by exists (n, content).
    + by apply IH.
  - apply last_sorted_None in Hlast. rewrite Hlast in Hin.
    by apply elem_of_nil in Hin.
Qed.

End checkpoint.

(** C7.  For a channel whose folder holds export files with distinct names:
    when the file with the lexically greatest name ending in [.json] loads and
    its message list ends with the entry [last_message], the tracker returns
    the ['id'] of that entry.  For a channel with no entry under its folder
    name in the exports directory, and for a channel whose folder holds no
    name ending in [.json], it returns [None]. *)
Theorem checkpoint_is_last_message_of_last_file (OUTPUT_DIR : exports)
    (channel_name : string) :
  (∀ entries name data earlier last_message,
     lookup_entry (sanitize channel_name) OUTPUT_DIR = Some (Dir entries) →
     NoDup entries.*1 →
     (name, Some data) ∈ entries →
     ends_with ".json" name = true →
     (∀ other, other ∈ entries → ends_with ".json" other.1 = true →
               String.leb other.1 name = true) →
     records data = earlier ++ [last_message] →
     get_last_message_id OUTPUT_DIR channel_name = r_id last_message)
  ∧ (lookup_entry (sanitize channel_name) OUTPUT_DIR = None →
     get_last_message_id OUTPUT_DIR channel_name = None)
  ∧ (∀ entries,
       lookup_entry (sanitize channel_name) OUTPUT_DIR = Some (Dir entries) →
       (∀ other, other ∈ entries → ends_with ".json" other.1 = false) →
       get_last_message_id OUTPUT_DIR channel_name = None).
Proof.
  split; [|split].
  - intros entries name data earlier last_message Hdir Hnodup Hin Hjson Hmax
      Hrecords.
    unfold get_last_message_id. rewrite Hdir.
    rewrite (last_sorted_is entries name (Some data)); [|done| |].
    + cbn. unfold records in Hrecords. rewrite Hrecords, last_snoc. done.
    + apply list_elem_of_filter. done.
    + intros other [Hj Ho]%list_elem_of_filter. by apply Hmax.
  - intros Hnone. unfold get_last_message_id. by rewrite Hnone.
  - intros entries Hdir Hnojson. unfold get_last_message_id. rewrite Hdir.
    assert (glob_json entries = []) as ->; [|done].
    clear Hdir. unfold glob_json. induction entries as [|e rest IH]; [done|].
    rewrite filter_cons, decide_False.
    + apply IH. intros other Ho. apply Hnojson. by right.
    + rewrite (Hnojson e); [done|]. by left.
Qed.

Lemma checkpoint_is_last_message_of_last_file_witness :
  get_last_message_id
    [("general",
      Dir [("general.json", Some file_A);
           ("general [part 2].json", Some file_B);
           ("notes.txt", None)])]
    "general"
  = Some (Read 100)
  ∧ get_last_message_id [("general", Dir [("notes.txt", None)])] "general"
    = None
  ∧ get_last_message_id [] "general" = None.
Proof.
  pose proof (checkpoint_is_last_message_of_last_file
                [("general",
                  Dir [("general.json", Some file_A);
                       ("general [part 2].json", Some file_B);
                       ("notes.txt", None)])]
                "general") as (Hlast & _ & _).
  pose proof (checkpoint_is_last_message_of_last_file
                [("general", Dir [("notes.txt", None)])] "general")
    as (_ & _ & Hnojson).
  pose proof (checkpoint_is_last_message_of_last_file [] "general")
    as (_ & Hnodir & _).
  split; [|split].
  - apply (Hlast [("general.json", Some file_A);
                  ("general [part 2].json", Some file_B);
                  ("notes.txt", None)]
             "general.json" file_A
             (map (λ id, sample_message id 7 "alice" "first wording")
                  (seqZ 1 99))
             (sample_message 100 7 "alice" "first wording")).
    + reflexivity.
    + cbn. repeat constructor; set_solver.
    + set_solver.
    + reflexivity.
    + intros other Ho Hj.
      repeat (apply elem_of_cons in Ho as [->|Ho]); try done.
      by apply elem_of_nil in Ho.
    + vm_compute. reflexivity.
  - apply (Hnojson [("notes.txt", None)]); [reflexivity|].
    intros other Ho. apply list_elem_of_singleton in Ho as ->. reflexivity.
  - by apply Hnodir.
Defined.

(** ** The selection of the channels to export *)

Section selection.

Lemma append_cons (x : ascii) (a b : string) :
  String x a +:+ b = String x (a +:+ b).
Proof. reflexivity. Qed.

Lemma append_empty (b : string) : "" +:+ b = b.
Proof. reflexivity. Qed.

Lemma prefix_append (a b : string) :
  String.prefix a b = true ↔ ∃ post, b = a +:+ post.
Proof.
  revert b. induction a as [|x a IH]; intros b.
  - split; [by exists b|by destruct b].
  - destruct b as [|y b]; cbn [String.prefix].
    + split; [done|]. intros [post Hpost]. by rewrite append_cons in Hpost.
    + setoid_rewrite append_cons.
      destruct (ascii_dec x y) as [->|Hne].
      * rewrite IH. split; intros [post Hpost]; exists post; congruence.
      * split; [done|]. intros [post Hpost]. congruence.
Qed.

(** [contains a b] is Python's [a in b]: [b] is [a] with something before
    and something after. *)
Lemma contains_spec (a b : string) :
  contains a b = true ↔ ∃ pre post, b = pre +:+ (a +:+ post).
Proof.
  induction b as [|y b IH]; cbn [contains].
  - rewrite orb_false_r, prefix_append. split.
    + intros [post Hpost]. by exists "", post.
    + intros (pre & post & Hb). destruct pre as [|x pre].
      * rewrite append_empty in Hb. by exists post.
      * by rewrite append_cons in Hb.
  - rewrite orb_true_iff, prefix_append, IH. split.
    + intros [[post Hpost]|(pre & post & Hb)].
      * by exists "", post.
      * exists (String y pre), post. by rewrite append_cons, Hb.
    + intros (pre & post & Hb). destruct pre as [|x pre].
      * left. rewrite append_empty in Hb. by exists post.
      * right. rewrite append_cons in Hb. exists pre, post. congruence.
Qed.

Lemma check_already_exported_spec (OUTPUT_DIR : exports) (channel_name : string) :
  check_already_exported OUTPUT_DIR channel_name = true
  ↔ ∃ item pre post,
      item ∈ OUTPUT_DIR ∧ lower item.1 = pre +:+ (lower channel_name +:+ post).
Proof.
  unfold check_already_exported. rewrite existsb_exists. split.
  - intros (item & Hin & Hsub).
    apply list_elem_of_In in Hin. apply contains_spec in Hsub.
    destruct Hsub as (pre & post & Hsub). by exists item, pre, post.
  - intros (item & pre & post & Hin & Hsub).
    exists item. split; [by apply list_elem_of_In|].
    apply contains_spec. eauto.
Qed.

Lemma select_channels_to_export resume_mode skip_list OUTPUT_DIR channels sel c :
  c ∈ to_export
        (foldl (select_channel resume_mode skip_list OUTPUT_DIR) sel channels)
  ↔ c ∈ to_export sel
    ∨ (c ∈ channels ∧ (ch_channel_id c ∉ skip_list)
       ∧ (resume_mode = true
          ∨ check_already_exported OUTPUT_DIR (ch_name c) = false)).
Proof.
  revert sel. induction channels as [|x rest IH]; intros sel; cbn [foldl].
  { rewrite elem_of_nil. tauto. }
  rewrite IH, elem_of_cons. unfold select_channel.
  case_bool_decide as Hskip; cbn.
  { intuition (subst; done). }
  destruct resume_mode,
    (check_already_exported OUTPUT_DIR (ch_name x)) eqn:Hcheck; cbn;
    rewrite ?elem_of_app, ?list_elem_of_singleton;
    intuition (subst; try done; try congruence; auto).
Qed.


End selection.




(** * Further properties of the code *)

(** ** The message queries *)

Section queries.

Implicit Types (db : DB) (row : Message).

Global Instance newer_first_trans : Transitive newer_first.
Proof. intros x y z. unfold newer_first. lia. Qed.

Global Instance newer_first_total : Total newer_first.
Proof. intros x y. unfold newer_first. lia. Qed.

Lemma StronglySorted_lookup {A} (R : relation A) (l : list A) i j x y :
  StronglySorted R l → (i < j)%nat →
  l !! i = Some x → l !! j = Some y → R x y.
Proof.
  intros Hsorted. revert i j.
  induction Hsorted as [|a l Hl IH Hall]; intros i j Hij Hi Hj; [done|].
  destruct j as [|j]; [lia|]. cbn in Hj.
  destruct i as [|i]; cbn in Hi.
  - injection Hi as <-. rewrite Forall_forall in Hall. apply Hall.
    by eapply list_elem_of_lookup_2.
  - apply (IH i j); [lia|done..].
Qed.

(** A page of a sorted query keeps the order of the query. *)
Lemma page_lookup {A} (l : list A) limit offset i x :
  take limit (drop offset l) !! i = Some x → l !! (offset + i)%nat = Some x.
Proof.
  intros Hi. apply lookup_take_Some in Hi as [Hi _].
  by rewrite lookup_drop in Hi.
Qed.

Lemma page_index {A} (R : relation A) `{∀ x y, Decision (R x y)}
    (query : list A) (x : A) :
  x ∈ query →
  ∃ offset, ∀ limit, (0 < limit)%nat →
    x ∈ take limit (drop offset (merge_sort R query)).
Proof.
  intros Hin. rewrite <- (merge_sort_Permutation R) in Hin.
  apply list_elem_of_lookup_1 in Hin as [i Hi].
  exists i. intros limit Hlimit.
  apply elem_of_take. exists 0%nat. split; [|lia].
  by rewrite lookup_drop, Nat.add_0_r.
Qed.

Lemma page_elem {A} (R : relation A) `{∀ x y, Decision (R x y)}
    (query : list A) (x : A) limit offset :
  x ∈ take limit (drop offset (merge_sort R query)) → x ∈ query.
Proof.
  intros Hin. apply elem_of_take in Hin as (i & Hi & _).
  rewrite lookup_drop in Hi. apply list_elem_of_lookup_2 in Hi.
  by rewrite merge_sort_Permutation in Hi.
Qed.

End queries.

(** X1.  Pages of the channel query fit together: the page of [n + m] rows
    at an offset is the page of [n] rows at that offset followed by the page
    of [m] rows at the offset moved on by [n]; and a page never holds more
    rows than its limit. *)
Theorem channel_pages_concatenate (db : DB) (channel_id : Z) (n m offset : nat)
    (include_deleted : bool) :
  get_messages_by_channel db channel_id (n + m) offset include_deleted
  = get_messages_by_channel db channel_id n offset include_deleted
    ++ get_messages_by_channel db channel_id m (offset + n) include_deleted
  ∧ (List.length (get_messages_by_channel db channel_id n offset include_deleted)
     ≤ n)%nat.
Proof.
  unfold get_messages_by_channel. cbn zeta. split.
  - by rewrite <- take_take_drop, drop_drop.
  - rewrite length_take. lia.
Qed.

(** X2.  Every page of the channel query is ordered newest first: of two
    rows of a page the one listed earlier has the later or the same
    timestamp. *)
Theorem channel_page_is_newest_first (db : DB) (channel_id : Z)
    (limit offset : nat) (include_deleted : bool) (i j : nat)
    (x y : Z * Message) :
  (i < j)%nat →
  get_messages_by_channel db channel_id limit offset include_deleted !! i
  = Some x →
  get_messages_by_channel db channel_id limit offset include_deleted !! j
  = Some y →
  m_timestamp y.2 <= m_timestamp x.2.
Proof.
  unfold get_messages_by_channel. cbn zeta. intros Hij Hi Hj.
  apply page_lookup in Hi, Hj.
  assert (newer_first x y) as Hxy; [|unfold newer_first in Hxy; lia].
  eapply (StronglySorted_lookup newer_first); [|..|exact Hi|exact Hj]; [|lia].
  apply (StronglySorted_merge_sort newer_first).
Qed.

Lemma channel_page_is_newest_first_witness :
  let db := (import_json_file (Some file_with_gap) 1 sample_db).1 in
  get_messages_by_channel db 10 10 0 false !! 0%nat
  = Some (3, mkMessage 10 7 (Some "three") 1700000003 None false None
               "Default" (Some []) None (Some "[]") (Some "[]") (Some "[]")
               None None)
  ∧ 1700000001 <= 1700000003.
Proof.
  cbn zeta.
  assert (H0 : get_messages_by_channel
                 (import_json_file (Some file_with_gap) 1 sample_db).1
                 10 10 0 false !! 0%nat
               = Some (3, mkMessage 10 7 (Some "three") 1700000003 None false
                            None "Default" (Some []) None (Some "[]")
                            (Some "[]") (Some "[]") None None))
    by (vm_compute; reflexivity).
  assert (H1 : get_messages_by_channel
                 (import_json_file (Some file_with_gap) 1 sample_db).1
                 10 10 0 false !! 1%nat
               = Some (1, mkMessage 10 7 (Some "one") 1700000001 None false
                            None "Default" (Some []) None (Some "[]")
                            (Some "[]") (Some "[]") None None))
    by (vm_compute; reflexivity).
  split; [exact H0|].
  exact (channel_page_is_newest_first _ 10 10 0 false 0 1 _ _
           (Nat.lt_0_succ 0) H0 H1).
Defined.

(** X3.  The time range query returns exactly the stored rows that are not
    deleted and whose timestamp lies in the closed range, narrowed to the
    channel when a channel identifier other than 0 is given and to the
    subnet when a subnet name other than the empty string is given; a
    channel identifier of 0 and an empty subnet name narrow nothing.  The
    rows come newest first. *)
Theorem timerange_query (db : DB) (start_time end_time : datetime)
    (channel_id : option Z) (subnet_name : option string) :
  (∀ id row,
     (id, row) ∈ get_messages_by_timerange db start_time end_time channel_id
                   subnet_name
     ↔ messages db !! id = Some row
       ∧ start_time <= m_timestamp row <= end_time
       ∧ m_deleted row = false
       ∧ (∀ c, channel_id = Some c → c ≠ 0 → m_channel_id row = c)
       ∧ (∀ s, subnet_name = Some s → s ≠ "" →
               sn_name <$> subnet_of_message db row = Some s))
  ∧ (∀ i j x y,
       (i < j)%nat →
       get_messages_by_timerange db start_time end_time channel_id subnet_name
         !! i = Some x →
       get_messages_by_timerange db start_time end_time channel_id subnet_name
         !! j = Some y →
       m_timestamp y.2 <= m_timestamp x.2).
Proof.
  split.
  - intros id row. unfold get_messages_by_timerange. cbn zeta.
    rewrite merge_sort_Permutation.
    destruct channel_id as [c|], subnet_name as [[|a s]|]; cbn;
      try destruct (Z.eqb_spec c 0) as [->|Hc]; cbn;
      rewrite !list_elem_of_filter, elem_of_map_to_list; cbn;
      (split;
       [intros H; repeat split; try tauto; try lia; intros; simplify_eq;
        try done; try tauto; try (clear -H; intuition congruence)
       |intros (Hrow & Hrange & Hdel & Hch & Hsn); repeat split;
        try done; try lia;
        try (by rewrite (Hch _ eq_refl Hc));
        try (by apply Hsn)]).
  - intros i j x y Hij Hi Hj.
    assert (newer_first x y) as Hxy; [|unfold newer_first in Hxy; lia].
    eapply (StronglySorted_lookup newer_first); [|exact Hij|exact Hi|exact Hj].
    apply (StronglySorted_merge_sort newer_first).
Qed.

(** X4.  A row is on some page of the subnet query exactly when it is
    stored, the channel it belongs to is linked to a subnet of that name,
    and it is not deleted or deleted rows are asked for. *)
Theorem subnet_query_membership (db : DB) (subnet_name : string)
    (include_deleted : bool) (id : Z) (row : Message) :
  (∃ limit offset,
     (id, row) ∈ get_messages_by_subnet db subnet_name limit offset
                   include_deleted)
  ↔ messages db !! id = Some row
    ∧ (∃ channel subnet_id subnet,
         channels db !! m_channel_id row = Some channel
         ∧ c_subnet_id channel = Some subnet_id
         ∧ subnets db !! subnet_id = Some subnet
         ∧ sn_name subnet = subnet_name)
    ∧ (include_deleted = false → m_deleted row = false).
Proof.
  assert (Hlinked :
    sn_name <$> subnet_of_message db row = Some subnet_name
    ↔ ∃ channel subnet_id subnet,
        channels db !! m_channel_id row = Some channel
        ∧ c_subnet_id channel = Some subnet_id
        ∧ subnets db !! subnet_id = Some subnet
        ∧ sn_name subnet = subnet_name).
  { unfold subnet_of_message. split.
    - destruct (channels db !! m_channel_id row) as [channel|] eqn:Hc; [|done].
      destruct (c_subnet_id channel) as [subnet_id|] eqn:Hsid; [|done].
      destruct (subnets db !! subnet_id) as [subnet|] eqn:Hs; [|done].
      cbn. intros [= <-]. by exists channel, subnet_id, subnet.
    - intros (channel & subnet_id & subnet & -> & -> & -> & <-). done. }
  rewrite <- Hlinked. unfold get_messages_by_subnet. cbn zeta. split.
  - intros (limit & offset & Hin). apply page_elem in Hin.
    destruct include_deleted; cbn in Hin.
    + apply list_elem_of_filter in Hin as [Hsn Hin].
      apply elem_of_map_to_list in Hin. done.
    + apply list_elem_of_filter in Hin as [Hdel Hin].
      apply list_elem_of_filter in Hin as [Hsn Hin].
      apply elem_of_map_to_list in Hin. done.
  - intros (Hrow & Hsn & Hdel).
    edestruct (page_index newer_first) as [offset Hoffset];
      [|exists 1%nat, offset; apply Hoffset; lia].
    assert ((id, row) ∈ filter
              (λ r : Z * Message,
                 sn_name <$> subnet_of_message db r.2 = Some subnet_name)
              (map_to_list (messages db))) as Hf.
    { apply list_elem_of_filter. split; [done|]. by apply elem_of_map_to_list. }
    destruct include_deleted; cbn; [done|].
    apply list_elem_of_filter. split; [|done]. by apply Hdel.
Qed.

(** ** Subnets and the link of a channel *)

Section subnets.

Implicit Types (db : DB).

Lemma subnet_by_name_Some db name i s :
  subnet_by_name db name = Some (i, s) →
  subnets db !! i = Some s ∧ sn_name s = name.
Proof.
  unfold subnet_by_name. intros Hhead%head_Some_elem_of.
  apply list_elem_of_filter in Hhead as [Hname Hin].
  by apply elem_of_map_to_list in Hin.
Qed.

Lemma subnet_by_name_None db name :
  subnet_by_name db name = None
  ↔ ∀ i s, subnets db !! i = Some s → sn_name s ≠ name.
Proof.
  unfold subnet_by_name. rewrite head_None. split.
  - intros Hnil i s Hs Hname.
    assert ((i, s) ∈ filter (λ r : Z * Subnet, sn_name r.2 = name)
                       (map_to_list (subnets db))) as Hin.
    { apply list_elem_of_filter. split; [done|]. by apply elem_of_map_to_list. }
    rewrite Hnil in Hin. by apply elem_of_nil in Hin.
  - intros Hnone.
    destruct (filter _ _) as [|[i s] l] eqn:Hf; [done|].
    assert ((i, s) ∈ filter (λ r : Z * Subnet, sn_name r.2 = name)
                       (map_to_list (subnets db))) as Hin
      by (rewrite Hf; left).
    apply list_elem_of_filter in Hin as [Hname Hin].
    apply elem_of_map_to_list in Hin. by destruct (Hnone i s).
Qed.

(** With unique names the look-up by name finds the row of that name. *)
Lemma subnet_by_name_unique db i s :
  names_unique db → subnets db !! i = Some s →
  subnet_by_name db (sn_name s) = Some (i, s).
Proof.
  intros Huniq Hs.
  destruct (subnet_by_name db (sn_name s)) as [[j t]|] eqn:Hfind.
  - apply subnet_by_name_Some in Hfind as [Ht Hname].
    assert (j = i) as -> by by eapply Huniq.
    congruence.
  - rewrite subnet_by_name_None in Hfind. by destruct (Hfind i s).
Qed.

Lemma upsert_subnet_cases name description tags nextval db :
  match subnet_by_name db name with
  | Some (id, subnet) =>
      let subnet' :=
        mkSubnet (sn_name subnet)
          (if truthy_str description then description else sn_description subnet)
          (if truthy_list tags then tags else sn_tags subnet) in
      upsert_subnet name description tags nextval db
      = (set_subnets <[id := subnet']> db, Return (id, subnet'))
  | None =>
      if has_row (subnets db) nextval
      then upsert_subnet name description tags nextval db
           = (db, Raise (IntegrityError UniqueViolation))
      else upsert_subnet name description tags nextval db
           = (set_subnets <[nextval := mkSubnet name description tags]> db,
              Return (nextval, mkSubnet name description tags))
  end.
Proof.
  unfold upsert_subnet, get_session.
  destruct (subnet_by_name db name) as [[id subnet]|]; [done|].
  by destruct (has_row (subnets db) nextval).
Qed.

End subnets.

(** X5.  [upsert_subnet] keeps the names of the subnets unique, and when it
    returns, a look-up by the name finds the subnet it returned, under the
    identifier it returned. *)
Theorem upsert_subnet_then_get (db : DB) (name : string)
    (description : option string) (tags : option (list string)) (nextval : Z)
    (db' : DB) (id : Z) (subnet : Subnet) :
  names_unique db →
  upsert_subnet name description tags nextval db = (db', Return (id, subnet)) →
  names_unique db'
  ∧ sn_name subnet = name
  ∧ get_subnet_by_name db' name = Some (id, subnet).
Proof.
  intros Huniq Hup.
  pose proof (upsert_subnet_cases name description tags nextval db) as Hcases.
  destruct (subnet_by_name db name) as [[i s]|] eqn:Hfind.
  - cbn zeta in Hcases. rewrite Hcases in Hup. injection Hup as <- <- <-.
    apply subnet_by_name_Some in Hfind as [Hs Hname].
    assert (Huniq' : names_unique
              (set_subnets
                 <[i := mkSubnet (sn_name s)
                          (if truthy_str description then description
                           else sn_description s)
                          (if truthy_list tags then tags else sn_tags s)]> db)).
    { intros j k u v. cbn. rewrite !lookup_insert.
      repeat case_decide; simplify_eq; intros; simplify_eq; cbn in *;
        try done.
      - symmetry. by eapply Huniq.
      - by eapply Huniq.
      - by eapply Huniq. }
    split; [done|]. split; [done|].
    unfold get_subnet_by_name. rewrite <- Hname.
    apply (subnet_by_name_unique _ i
             (mkSubnet (sn_name s) _ _) Huniq').
    cbn. apply lookup_insert_eq.
  - destruct (has_row (subnets db) nextval) eqn:Hnext;
      rewrite Hcases in Hup; [done|].
    injection Hup as <- <- <-.
    apply has_row_false in Hnext.
    rewrite subnet_by_name_None in Hfind.
    assert (Huniq' : names_unique
              (set_subnets <[nextval := mkSubnet name description tags]> db)).
    { intros j k u v. cbn. rewrite !lookup_insert.
      repeat case_decide; simplify_eq; intros; simplify_eq; cbn in *;
        try done.
      - by destruct (Hfind k v).
      - by destruct (Hfind j u).
      - by eapply Huniq. }
    split; [done|]. split; [done|].
    unfold get_subnet_by_name.
    apply (subnet_by_name_unique _ nextval
             (mkSubnet name description tags) Huniq').
    cbn. apply lookup_insert_eq.
Qed.

Lemma names_unique_sample_db : names_unique sample_db.
Proof. intros i j s t Hs. cbn in Hs. by rewrite lookup_empty in Hs. Qed.

Lemma upsert_subnet_then_get_witness :
  let db' :=
    set_subnets <[1 := mkSubnet "subnet-23" (Some "miners") None]> sample_db in
  upsert_subnet "subnet-23" (Some "miners") None 1 sample_db
  = (db', Return (1, mkSubnet "subnet-23" (Some "miners") None))
  ∧ get_subnet_by_name db' "subnet-23"
    = Some (1, mkSubnet "subnet-23" (Some "miners") None).
Proof.
  cbn zeta.
  assert (Hup : upsert_subnet "subnet-23" (Some "miners") None 1 sample_db
                = (set_subnets
                     <[1 := mkSubnet "subnet-23" (Some "miners") None]>
                     sample_db,
                   Return (1, mkSubnet "subnet-23" (Some "miners") None)))
    by (vm_compute; reflexivity).
  split; [exact Hup|].
  exact (proj2 (proj2 (upsert_subnet_then_get sample_db "subnet-23"
                         (Some "miners") None 1 _ 1 _
                         names_unique_sample_db Hup))).
Defined.

(** X6.  On a name that is stored [upsert_subnet] keeps the identifier and
    the name, and replaces the description and the tags only by a new value
    that is not empty: called without description and tags, or with an empty
    string and an empty list, it leaves the row as it is. *)
Theorem upsert_subnet_keeps_what_is_not_given (db : DB) (name : string)
    (description : option string) (tags : option (list string)) (nextval : Z)
    (id : Z) (subnet : Subnet) :
  get_subnet_by_name db name = Some (id, subnet) →
  ∃ subnet',
    upsert_subnet name description tags nextval db
    = (set_subnets <[id := subnet']> db, Return (id, subnet'))
    ∧ sn_name subnet' = name
    ∧ (truthy_str description = false →
       sn_description subnet' = sn_description subnet)
    ∧ (truthy_str description = true → sn_description subnet' = description)
    ∧ (truthy_list tags = false → sn_tags subnet' = sn_tags subnet)
    ∧ (truthy_list tags = true → sn_tags subnet' = tags)
    ∧ (truthy_str description = false → truthy_list tags = false →
       set_subnets <[id := subnet']> db = db).
Proof.
  unfold get_subnet_by_name. intros Hfind.
  pose proof (upsert_subnet_cases name description tags nextval db) as Hcases.
  rewrite Hfind in Hcases. cbn zeta in Hcases.
  apply subnet_by_name_Some in Hfind as [Hs Hname].
  eexists. split; [exact Hcases|]. cbn.
  split; [done|].
  split; [by intros ->|]. split; [by intros ->|].
  split; [by intros ->|]. split; [by intros ->|].
  intros -> ->. unfold set_subnets. destruct db as [sv sn chs us ms]. cbn in *.
  f_equal. apply insert_id. by destruct subnet.
Qed.

Lemma upsert_subnet_keeps_what_is_not_given_witness :
  let db :=
    set_subnets <[1 := mkSubnet "subnet-23" (Some "miners") (Some ["subnet"])]>
      sample_db in
  upsert_subnet "subnet-23" (Some "") (Some []) 2 db
  = (db, Return (1, mkSubnet "subnet-23" (Some "miners") (Some ["subnet"]))).
Proof.
  cbn zeta.
  assert (Hget : get_subnet_by_name
                   (set_subnets
                      <[1 := mkSubnet "subnet-23" (Some "miners")
                               (Some ["subnet"])]> sample_db)
                   "subnet-23"
                 = Some (1, mkSubnet "subnet-23" (Some "miners")
                              (Some ["subnet"])))
    by (vm_compute; reflexivity).
  destruct (upsert_subnet_keeps_what_is_not_given _ "subnet-23" (Some "")
              (Some []) 2 1 _ Hget)
    as (subnet' & Hup & Hname & Hd & _ & Ht & _ & Hsame).
  rewrite Hup. rewrite (Hsame eq_refl eq_refl).
  specialize (Hd eq_refl). specialize (Ht eq_refl).
  destruct subnet' as [n d t]. cbn in *. by subst.
Defined.

(** X7.  When the subnet name and the channel are both stored,
    [link_channel_to_subnet] answers [True] and rewrites the channel row
    with the identifier of the subnet, every other column as before.  A
    look-up of the subnet of the channel then finds that subnet, unless its
    identifier is 0, which the look-up takes for "no subnet". *)
Theorem link_then_lookup (db : DB) (channel_id : Z) (subnet_name : string)
    (subnet_id : Z) (subnet : Subnet) (channel : Channel) :
  get_subnet_by_name db subnet_name = Some (subnet_id, subnet) →
  channels db !! channel_id = Some channel →
  let db' :=
    set_channels
      <[channel_id :=
          mkChannel (c_server_id channel) (Some subnet_id) (c_name channel)
            (c_topic channel) (c_category channel) (c_position channel)]> db in
  link_channel_to_subnet channel_id subnet_name db = (db', Return true)
  ∧ (subnet_id ≠ 0 →
     get_subnet_by_channel db' channel_id = Some (subnet_id, subnet))
  ∧ (subnet_id = 0 → get_subnet_by_channel db' channel_id = None).
Proof.
  intros Hfind Hchannel db'. unfold get_subnet_by_name in Hfind.
  destruct (subnet_by_name_Some _ _ _ _ Hfind) as [Hs _].
  split.
  - unfold link_channel_to_subnet, get_session, update_channel.
    rewrite Hfind, Hchannel. cbn.
    assert (has_row (subnets db) subnet_id = true) as ->
      by (apply has_row_true; eauto).
    by rewrite orb_true_r.
  - unfold get_subnet_by_channel, db'. cbn. rewrite lookup_insert_eq. cbn.
    split.
    + intros Hne. apply Z.eqb_neq in Hne as ->. cbn. by rewrite Hs.
    + intros ->. done.
Qed.

Lemma link_then_lookup_witness :
  let db :=
    set_channels <[10 := mkChannel 1 None "general" None None None]>
      (set_subnets <[1 := mkSubnet "subnet-23" None None]> sample_db) in
  let db' :=
    set_channels <[10 := mkChannel 1 (Some 1) "general" None None None]> db in
  link_channel_to_subnet 10 "subnet-23" db = (db', Return true)
  ∧ get_subnet_by_channel db' 10 = Some (1, mkSubnet "subnet-23" None None).
Proof.
  cbn zeta.
  assert (Hget : get_subnet_by_name
                   (set_channels
                      <[10 := mkChannel 1 None "general" None None None]>
                      (set_subnets <[1 := mkSubnet "subnet-23" None None]>
                         sample_db))
                   "subnet-23"
                 = Some (1, mkSubnet "subnet-23" None None))
    by (vm_compute; reflexivity).
  destruct (link_then_lookup _ 10 "subnet-23" 1 _
              (mkChannel 1 None "general" None None None) Hget eq_refl)
    as (Hlink & Hlookup & _).
  split.
  - rewrite Hlink. unfold set_channels; cbn. by rewrite insert_insert_eq.
  - rewrite <- (Hlookup ltac:(lia)). unfold set_channels; cbn.
    by rewrite insert_insert_eq.
Defined.

(** X8.  [link_channel_to_subnet] never raises.  It answers [False] exactly
    when the subnet name or the channel is not stored, and then the store is
    as before. *)
Theorem link_fails_without_subnet_or_channel (db : DB) (channel_id : Z)
    (subnet_name : string) :
  ∃ db' answer,
    link_channel_to_subnet channel_id subnet_name db = (db', Return answer)
    ∧ (answer = false
       ↔ get_subnet_by_name db subnet_name = None
         ∨ channels db !! channel_id = None)
    ∧ (answer = false → db' = db).
Proof.
  unfold get_subnet_by_name.
  destruct (subnet_by_name db subnet_name) as [[subnet_id subnet]|] eqn:Hfind.
  - destruct (channels db !! channel_id) as [channel|] eqn:Hchannel.
    + destruct (link_then_lookup db channel_id subnet_name subnet_id subnet
                  channel Hfind Hchannel) as [Hlink _].
      eexists _, true. split; [exact Hlink|]. split; [|done].
      split; [done|]. by intros [|].
    + exists db, false. unfold link_channel_to_subnet, get_session.
      rewrite Hfind, Hchannel. split; [done|]. split; [|done]. by split; [right|].
  - exists db, false. unfold link_channel_to_subnet, get_session.
    rewrite Hfind. split; [done|]. split; [|done]. by split; [left|].
Qed.

(** X9.  The file import undoes the link: when it imports a file of a
    channel that is stored, the channel row afterwards carries the name and
    the topic of the file, no subnet, no category and no position, and the
    server it had; so the look-up of the subnet of the channel finds
    nothing, whatever the channel was linked to before. *)
Theorem import_resets_channel_link (db : DB) (server_id : Z) (data : ExportDoc)
    (db' : DB) (c : counters) (channel_id : Z) (old : Channel) :
  import_json_file (Some data) server_id db = (db', Imported c) →
  channel_id_of data = Return channel_id →
  channels db !! channel_id = Some old →
  channels db' !! channel_id
  = Some (mkChannel (c_server_id old) None
            (default "Unknown" (ci_name (default no_channel (d_channel data))))
            (ci_topic (default no_channel (d_channel data))) None None)
  ∧ get_subnet_by_channel db' channel_id = None.
Proof.
  intros Hrun Hch Hold.
  apply import_json_file_imported in Hrun
    as (channel_id' & crow & Hch' & Hup & Hloop).
  rewrite Hch in Hch'. injection Hch' as <-.
  rewrite (upsert_channel_present channel_id server_id _ None _ None None
             db old Hold eq_refl) in Hup.
  injection Hup as Hdb Hcrow.
  pose proof (import_messages_frame _ _ _ _ _ _ Hloop) as (_ & _ & Hc).
  assert (Hrow : channels db' !! channel_id = Some crow).
  { rewrite Hc. cbn. apply lookup_insert_eq. }
  split; [by rewrite Hrow, <- Hcrow|].
  unfold get_subnet_by_channel. rewrite Hrow, <- Hcrow. done.
Qed.

Lemma import_resets_channel_link_witness :
  let db :=
    set_channels <[10 := mkChannel 1 (Some 1) "general" None None (Some 4)]>
      (set_subnets <[1 := mkSubnet "subnet-23" None None]> sample_db) in
  get_subnet_by_channel db 10 = Some (1, mkSubnet "subnet-23" None None)
  ∧ get_subnet_by_channel (import_json_file (Some file_with_gap) 1 db).1 10
    = None.
Proof.
  cbn zeta. split; [vm_compute; reflexivity|].
  assert (Hrun :
    import_json_file (Some file_with_gap) 1
      (set_channels <[10 := mkChannel 1 (Some 1) "general" None None (Some 4)]>
         (set_subnets <[1 := mkSubnet "subnet-23" None None]> sample_db))
    = ((import_json_file (Some file_with_gap) 1
          (set_channels
             <[10 := mkChannel 1 (Some 1) "general" None None (Some 4)]>
             (set_subnets <[1 := mkSubnet "subnet-23" None None]> sample_db))).1,
       Imported (mkCounters 2 0 [warning_no_timestamp (Some (Read 2))])))
    by (vm_compute; reflexivity).
  exact (proj2 (import_resets_channel_link _ 1 file_with_gap _ _ 10
                  (mkChannel 1 (Some 1) "general" None None (Some 4))
                  Hrun eq_refl eq_refl)).
Defined.

(** ** Edits and inserts *)

Section edits.

Implicit Types (db : DB) (row : Message) (md : message_data).

Lemma md_message_id_foldl md kwargs :
  md_message_id (foldl setattr md kwargs) = md_message_id md.
Proof.
  revert md. induction kwargs as [|kw rest IH]; intros md; [done|].
  cbn. by rewrite IH, md_message_id_setattr.
Qed.

(** What [update_message] does on a stored identifier. *)
Lemma update_message_present db id row kwargs :
  messages db !! id = Some row →
  match to_row (foldl setattr (of_row id row) kwargs) with
  | None =>
      update_message id kwargs db = (db, Raise (IntegrityError NotNullViolation))
  | Some row' =>
      if update_refs_ok db row row'
      then update_message id kwargs db
           = (set_messages <[id := row']> db, Return (Some row'))
      else update_message id kwargs db
           = (db, Raise (IntegrityError ForeignKeyViolation))
  end.
Proof.
  intros Hrow. unfold update_message, get_session, flush_message.
  rewrite Hrow, md_message_id_foldl.
  destruct (to_row _) as [row'|]; [|done].
  by destruct (update_refs_ok db row row').
Qed.

End edits.

(** X10.  An edit through [update_message] on a stored identifier overwrites
    the text and the edit timestamp and nothing else of the row; a keyword
    that names no column is passed over. *)
Theorem update_message_applies_edit (db : DB) (message_id : Z) (row : Message)
    (content : option string) (edited_timestamp : option datetime)
    (key : string) :
  messages db !! message_id = Some row →
  update_message message_id
    [kw_content content; kw_other key; kw_edited_timestamp edited_timestamp] db
  = (set_messages <[message_id := edited row content edited_timestamp]> db,
     Return (Some (edited row content edited_timestamp))).
Proof.
  intros Hrow.
  pose proof (update_message_present db message_id row
                [kw_content content; kw_other key;
                 kw_edited_timestamp edited_timestamp] Hrow) as Hup.
  destruct row. cbn in Hup. unfold update_refs_ok in Hup. cbn in Hup.
  by rewrite !bool_decide_eq_true_2 in Hup by done.
Qed.

Lemma update_message_applies_edit_witness :
  let row := mkMessage 10 1 (Some "hi") 100 None false None "Default" None
               None None None None None None in
  let db := set_messages <[5 := row]> sample_db in
  update_message 5
    [kw_content (Some "hello"); kw_other "pinned";
     kw_edited_timestamp (Some 150)] db
  = (set_messages <[5 := edited row (Some "hello") (Some 150)]> db,
     Return (Some (edited row (Some "hello") (Some 150)))).
Proof.
  cbn zeta. apply update_message_applies_edit. reflexivity.
Defined.

(** X11.  [update_message] works on one row: whatever the keywords, the
    other tables and the other message rows are as before and the row is
    neither removed nor created.  It answers [None] exactly when the
    identifier is not stored, and when it raises (a column that may not be
    empty was emptied, or a channel or author was named that is not stored)
    the store is as before. *)
Theorem update_message_touches_one_row (db : DB) (message_id : Z)
    (kwargs : list kwarg) :
  ∃ db' r,
    update_message message_id kwargs db = (db', r)
    ∧ servers db' = servers db ∧ subnets db' = subnets db
    ∧ channels db' = channels db ∧ users db' = users db
    ∧ (∀ j, j ≠ message_id → messages db' !! j = messages db !! j)
    ∧ (is_Some (messages db' !! message_id)
       ↔ is_Some (messages db !! message_id))
    ∧ (r = Return None ↔ messages db !! message_id = None)
    ∧ (∀ e, r = Raise e → db' = db ∧ ∃ v, e = IntegrityError v).
Proof.
  destruct (messages db !! message_id) as [row|] eqn:Hrow.
  - pose proof (update_message_present db message_id row kwargs Hrow) as Hup.
    destruct (to_row _) as [row'|].
    + destruct (update_refs_ok db row row').
      * eexists _, _. split; [exact Hup|]. cbn.
        repeat split; try done.
        -- intros j Hj. by rewrite lookup_insert_ne.
        -- rewrite lookup_insert_eq. eauto.
      * exists db, (Raise (IntegrityError ForeignKeyViolation)).
        split; [exact Hup|]. rewrite Hrow.
        repeat split; try done; intros; simplify_eq; eauto.
    + exists db, (Raise (IntegrityError NotNullViolation)).
      split; [exact Hup|]. rewrite Hrow.
      repeat split; try done; intros; simplify_eq; eauto.
  - exists db, (Return None).
    split.
    { unfold update_message, get_session. by rewrite Hrow. }
    rewrite Hrow. repeat split; try done.
Qed.

(** X12.  [insert_message] never raises.  When it answers [None] the store
    is as before; when it answers a row, the identifier was not stored, the
    row is the record with the column defaults filled in, its channel and
    its author are stored, and the store differs by that one row. *)
Theorem insert_message_adds_one_row_or_nothing (db : DB) (md : message_data) :
  ∃ db' answer,
    insert_message md db = (db', Return answer)
    ∧ match answer with
      | None => db' = db
      | Some row =>
          messages db !! md_message_id md = None
          ∧ to_row md = Some row
          ∧ is_Some (channels db !! m_channel_id row)
          ∧ is_Some (users db !! m_user_id row)
          ∧ db' = set_messages <[md_message_id md := row]> db
      end.
Proof.
  destruct (insert_message_cases md db)
    as [(row & Hins & Hnone & Hrow & Hrefs)|[Hins _]].
  - eexists _, (Some row). split; [exact Hins|].
    unfold message_refs_ok in Hrefs. apply andb_prop in Hrefs as [Hc Hu].
    apply has_row_true in Hc, Hu. done.
  - by exists db, None.
Qed.

(** X13.  A message that [insert_message] stored is listed by the channel
    query for its channel when deleted rows are asked for, and also without
    them unless the record said it was deleted; everything the record gave
    is in the listed row. *)
Theorem inserted_message_is_listed (db db' : DB) (md : message_data)
    (row : Message) (limit : nat) :
  insert_message md db = (db', Return (Some row)) →
  (size (messages db') ≤ limit)%nat →
  (md_message_id md, row)
  ∈ get_messages_by_channel db' (m_channel_id row) limit 0 true
  ∧ (md_deleted md ≠ Some true →
     (md_message_id md, row)
     ∈ get_messages_by_channel db' (m_channel_id row) limit 0 false)
  ∧ to_row md = Some row.
Proof.
  intros Hins Hlimit.
  destruct (insert_message_cases md db)
    as [(row' & Hins' & Hnone & Hrow & Hrefs)|[Hins' _]];
    rewrite Hins' in Hins; [|done].
  injection Hins as <- <-.
  assert (Hstored : messages (set_messages <[md_message_id md := row']> db)
                      !! md_message_id md = Some row').
  { cbn. apply lookup_insert_eq. }
  split; [|split; [|done]].
  - apply get_messages_by_channel_first_page; auto.
  - intros Hdel. apply get_messages_by_channel_first_page; auto.
    right. unfold to_row in Hrow.
    destruct (md_channel_id md), (md_user_id md), (md_timestamp md);
      try done.
    injection Hrow as <-. cbn. by destruct (md_deleted md) as [[|]|].
Qed.

Lemma inserted_message_is_listed_witness :
  let db := (import_json_file (Some file_with_gap) 1 sample_db).1 in
  let md := sample_message_data 9 10 7 (Some 1700000009) in
  ∃ db' row,
    insert_message md db = (db', Return (Some row))
    ∧ (9, row) ∈ get_messages_by_channel db' 10 100 0 false.
Proof.
  cbn zeta.
  set (db := (import_json_file (Some file_with_gap) 1 sample_db).1).
  set (md := sample_message_data 9 10 7 (Some 1700000009)).
  destruct (insert_message_adds_one_row_or_nothing db md)
    as (db' & [row|] & Hins & Hrest).
  - exists db', row. split; [exact Hins|].
    destruct Hrest as (_ & Hrow & _ & _ & Hdb').
    assert (Hch : m_channel_id row = 10).
    { vm_compute in Hrow. by injection Hrow as <-. }
    assert (Hsize : (size (messages db') ≤ 100)%nat).
    { rewrite Hdb'. vm_compute. lia. }
    rewrite <- Hch.
    apply (inserted_message_is_listed db db' md row 100 Hins Hsize).
    done.
  - exfalso. vm_compute in Hins. discriminate.
Defined.

(** ** Referential integrity *)

Section integrity.

Implicit Types (db : DB).

(** A store that extends one with integrity by rows whose parents are
    stored has integrity. *)
Lemma referential_integrity_extend db db' :
  referential_integrity db →
  (∀ k, is_Some (servers db !! k) → is_Some (servers db' !! k)) →
  (∀ k, is_Some (subnets db !! k) → is_Some (subnets db' !! k)) →
  (∀ k, is_Some (users db !! k) → is_Some (users db' !! k)) →
  (∀ k, is_Some (channels db !! k) → is_Some (channels db' !! k)) →
  (∀ id row, messages db' !! id = Some row →
     messages db !! id = Some row
     ∨ (is_Some (channels db' !! m_channel_id row)
        ∧ is_Some (users db' !! m_user_id row))) →
  (∀ id c, channels db' !! id = Some c →
     channels db !! id = Some c
     ∨ (is_Some (servers db' !! c_server_id c)
        ∧ ∀ sid, c_subnet_id c = Some sid → is_Some (subnets db' !! sid))) →
  referential_integrity db'.
Proof.
  intros [Hm Hc] Hsv Hsn Hus Hch Hm' Hc'. split.
  - intros id row Hrow. destruct (Hm' id row Hrow) as [Hold|Hnew]; [|done].
    destruct (Hm id row Hold). split; auto.
  - intros id c Hrow. destruct (Hc' id c Hrow) as [Hold|Hnew]; [|done].
    destruct (Hc id c Hold) as [Hs Hsub]. split; [auto|].
    intros sid Hsid. auto.
Qed.

Lemma is_Some_insert {A} (m : gmap Z A) i x k :
  is_Some (m !! k) → is_Some (<[i := x]> m !! k).
Proof.
  intros Hk. destruct (decide (i = k)) as [->|Hne].
  - rewrite lookup_insert_eq. eauto.
  - by rewrite lookup_insert_ne.
Qed.

Lemma lookup_insert_old {A} (m : gmap Z A) i x k y :
  <[i := x]> m !! k = Some y → (k = i ∧ y = x) ∨ m !! k = Some y.
Proof.
  destruct (decide (i = k)) as [->|Hne].
  - rewrite lookup_insert_eq. intros [= <-]. by left.
  - rewrite lookup_insert_ne by done. by right.
Qed.

Lemma integrity_upsert_server db server_id name icon_url :
  referential_integrity db →
  referential_integrity (upsert_server server_id name icon_url db).1.
Proof.
  intros Hri. rewrite upsert_server_eq. cbn.
  apply (referential_integrity_extend db); cbn; auto using is_Some_insert.
Qed.

Lemma integrity_upsert_user db user_id username discriminator display_name
    avatar_url bot :
  referential_integrity db →
  referential_integrity
    (upsert_user user_id username discriminator display_name avatar_url bot
       db).1.
Proof.
  intros Hri. rewrite upsert_user_eq. cbn.
  apply (referential_integrity_extend db); cbn; auto using is_Some_insert.
Qed.

Lemma integrity_set_channel db channel_id c :
  referential_integrity db →
  is_Some (servers db !! c_server_id c) →
  (∀ sid, c_subnet_id c = Some sid → is_Some (subnets db !! sid)) →
  referential_integrity (set_channels <[channel_id := c]> db).
Proof.
  intros Hri Hs Hsub.
  apply (referential_integrity_extend db); cbn; auto using is_Some_insert.
  intros id c' Hrow. apply lookup_insert_old in Hrow as [[-> ->]|Hold]; auto.
Qed.

Lemma integrity_update_channel db channel_id old c db' :
  referential_integrity db →
  channels db !! channel_id = Some old →
  c_server_id c = c_server_id old →
  update_channel channel_id old c db = Return db' →
  referential_integrity db'.
Proof.
  intros Hri Hold Hsrv. unfold update_channel.
  destruct (bool_decide _ || _) eqn:Hok; [|done]. intros [= <-].
  destruct Hri as [Hm Hc]. destruct (Hc _ _ Hold) as [Hs Hsub].
  apply integrity_set_channel; [done|by rewrite Hsrv|].
  intros sid Hsid. apply orb_prop in Hok as [Hsame|Hchecked].
  - apply bool_decide_eq_true in Hsame. apply Hsub. congruence.
  - rewrite Hsid in Hchecked. by apply has_row_true in Hchecked.
Qed.

Lemma integrity_upsert_channel db channel_id server_id name subnet_id topic
    category position :
  referential_integrity db →
  referential_integrity
    (upsert_channel channel_id server_id name subnet_id topic category
       position db).1.
Proof.
  intros Hri. unfold upsert_channel, get_session.
  destruct (channels db !! channel_id) as [old|] eqn:Hold.
  - destruct (update_channel _ _ _ db) as [db'|e] eqn:Hup; [|done]. cbn.
    refine (integrity_update_channel db channel_id old _ db' Hri Hold _ Hup).
    reflexivity.
  - unfold insert_channel. cbn.
    destruct (has_row _ _ && _) eqn:Hok; [|done]. cbn.
    apply andb_prop in Hok as [Hs Hsub]. apply has_row_true in Hs.
    apply integrity_set_channel; [done..|].
    cbn. intros sid ->. by apply has_row_true in Hsub.
Qed.

Lemma integrity_set_message db id row :
  referential_integrity db →
  is_Some (channels db !! m_channel_id row) →
  is_Some (users db !! m_user_id row) →
  referential_integrity (set_messages <[id := row]> db).
Proof.
  intros Hri Hc Hu.
  apply (referential_integrity_extend db); cbn; auto.
  intros id' row' Hrow. apply lookup_insert_old in Hrow as [[-> ->]|Hold]; auto.
Qed.

Lemma integrity_insert_message db md :
  referential_integrity db → referential_integrity (insert_message md db).1.
Proof.
  intros Hri.
  destruct (insert_message_cases md db)
    as [(row & -> & _ & _ & Hrefs)|[-> _]]; [|done].
  cbn. unfold message_refs_ok in Hrefs. apply andb_prop in Hrefs as [Hc Hu].
  apply has_row_true in Hc, Hu. by apply integrity_set_message.
Qed.

Lemma integrity_update_message db id kwargs :
  referential_integrity db →
  referential_integrity (update_message id kwargs db).1.
Proof.
  intros Hri.
  destruct (messages db !! id) as [row|] eqn:Hrow.
  - pose proof (update_message_present db id row kwargs Hrow) as Hup.
    destruct (to_row _) as [row'|]; [|by rewrite Hup].
    destruct (update_refs_ok db row row') eqn:Hok; rewrite Hup; [|done].
    cbn. destruct Hri as [Hm Hc]. destruct (Hm _ _ Hrow) as [Hch Hus].
    unfold update_refs_ok in Hok. apply andb_prop in Hok as [Hc' Hu'].
    apply integrity_set_message; [done| |].
    + apply orb_prop in Hc' as [Hsame|Hchecked].
      * apply bool_decide_eq_true in Hsame. by rewrite Hsame.
      * by apply has_row_true in Hchecked.
    + apply orb_prop in Hu' as [Hsame|Hchecked].
      * apply bool_decide_eq_true in Hsame. by rewrite Hsame.
      * by apply has_row_true in Hchecked.
  - unfold update_message, get_session. by rewrite Hrow.
Qed.

Lemma integrity_mark_message_deleted db id t :
  referential_integrity db →
  referential_integrity (mark_message_deleted id t db).1.
Proof.
  intros Hri.
  destruct (messages db !! id) as [row|] eqn:Hrow.
  - rewrite (mark_message_deleted_present db id row t Hrow). cbn.
    destruct Hri as [Hm Hc]. destruct (Hm _ _ Hrow) as [Hch Hus].
    by apply integrity_set_message.
  - unfold mark_message_deleted, get_session. by rewrite Hrow.
Qed.

Lemma integrity_set_subnet db id subnet :
  referential_integrity db →
  referential_integrity (set_subnets <[id := subnet]> db).
Proof.
  intros Hri.
  apply (referential_integrity_extend db); cbn; auto using is_Some_insert.
Qed.

Lemma integrity_upsert_subnet db name description tags nextval :
  referential_integrity db →
  referential_integrity (upsert_subnet name description tags nextval db).1.
Proof.
  intros Hri.
  pose proof (upsert_subnet_cases name description tags nextval db) as Hcases.
  destruct (subnet_by_name db name) as [[id subnet]|].
  - cbn zeta in Hcases. rewrite Hcases. cbn. by apply integrity_set_subnet.
  - destruct (has_row (subnets db) nextval); rewrite Hcases; [done|].
    cbn. by apply integrity_set_subnet.
Qed.

Lemma integrity_link_channel_to_subnet db channel_id subnet_name :
  referential_integrity db →
  referential_integrity (link_channel_to_subnet channel_id subnet_name db).1.
Proof.
  intros Hri. unfold link_channel_to_subnet, get_session.
  destruct (subnet_by_name db subnet_name) as [[subnet_id subnet]|]; [|done].
  destruct (channels db !! channel_id) as [channel|] eqn:Hold; [|done].
  destruct (update_channel _ _ _ db) as [db'|e] eqn:Hup; [|done]. cbn.
  refine (integrity_update_channel db channel_id channel _ db' Hri Hold _ Hup).
  reflexivity.
Qed.

Lemma integrity_import_message db channel_id msg :
  referential_integrity db →
  referential_integrity (import_message channel_id msg db).1.
Proof.
  intros Hri. rewrite import_message_unfold.
  destruct (author_id_of msg) as [a|e]; [|done]. cbn zeta.
  assert (Hri1 : referential_integrity (set_users <[a:=author_row msg]> db)).
  { apply (referential_integrity_extend db); cbn; auto using is_Some_insert. }
  destruct (build_message_data channel_id a msg) as [[md|]|e]; [|done..].
  pose proof (integrity_insert_message _ md Hri1) as Hri2.
  by destruct (insert_message md _) as [db2 [[row|]|e]].
Qed.

Lemma integrity_import_messages channel_id msgs c db :
  referential_integrity db →
  referential_integrity (import_messages channel_id msgs c db).1.
Proof.
  revert c db. induction msgs as [|m rest IH]; intros c db Hri; [done|].
  cbn [import_messages].
  pose proof (integrity_import_message db channel_id m Hri) as Hstep.
  destruct (import_message channel_id m db) as [db1 r]. by apply IH.
Qed.

Lemma integrity_import_json_file json_file server_id db :
  referential_integrity db →
  referential_integrity (import_json_file json_file server_id db).1.
Proof.
  intros Hri. unfold import_json_file.
  destruct json_file as [data|]; [|done].
  destruct (py_int _) as [channel_id|e]; [|done].
  pose proof (integrity_upsert_channel db channel_id server_id
                (default "Unknown" (ci_name (default no_channel (d_channel data))))
                None (ci_topic (default no_channel (d_channel data))) None None
                Hri) as Hri1.
  destruct (upsert_channel _ _ _ _ _ _ _ db) as [db1 [crow|e]]; [|done].
  pose proof (integrity_import_messages channel_id (default [] (d_messages data))
                (mkCounters 0 0 []) db1 Hri1) as Hri2.
  by destruct (import_messages _ _ _ db1) as [db2 c].
Qed.

End integrity.

(** X14.  Every operation of the service keeps the foreign keys of the
    schema: from a store in which each message has its channel and author
    and each channel its server and subnet, the upserts, the insert, the
    update, the soft delete and the link lead to such a store again,
    whatever their arguments and whether they succeed or raise. *)
Theorem service_keeps_referential_integrity (db : DB) :
  referential_integrity db →
  (∀ server_id name icon_url,
     referential_integrity (upsert_server server_id name icon_url db).1)
  ∧ (∀ name description tags nextval,
       referential_integrity (upsert_subnet name description tags nextval db).1)
  ∧ (∀ channel_id server_id name subnet_id topic category position,
       referential_integrity
         (upsert_channel channel_id server_id name subnet_id topic category
            position db).1)
  ∧ (∀ channel_id subnet_name,
       referential_integrity
         (link_channel_to_subnet channel_id subnet_name db).1)
  ∧ (∀ user_id username discriminator display_name avatar_url bot,
       referential_integrity
         (upsert_user user_id username discriminator display_name avatar_url
            bot db).1)
  ∧ (∀ md, referential_integrity (insert_message md db).1)
  ∧ (∀ message_id kwargs,
       referential_integrity (update_message message_id kwargs db).1)
  ∧ (∀ message_id utcnow,
       referential_integrity (mark_message_deleted message_id utcnow db).1).
Proof.
  intros Hri.
  split; [intros; by apply integrity_upsert_server|].
  split; [intros; by apply integrity_upsert_subnet|].
  split; [intros; by apply integrity_upsert_channel|].
  split; [intros; by apply integrity_link_channel_to_subnet|].
  split; [intros; by apply integrity_upsert_user|].
  split; [intros; by apply integrity_insert_message|].
  split; [intros; by apply integrity_update_message|].
  intros; by apply integrity_mark_message_deleted.
Qed.

Lemma referential_integrity_sample_db : referential_integrity sample_db.
Proof.
  split.
  - intros id row Hrow. cbn in Hrow. by rewrite lookup_empty in Hrow.
  - intros id c Hrow. cbn in Hrow. by rewrite lookup_empty in Hrow.
Qed.

Lemma service_keeps_referential_integrity_witness :
  referential_integrity sample_db
  ∧ referential_integrity
      (upsert_channel 10 1 "general" None None None None sample_db).1.
Proof.
  split; [exact referential_integrity_sample_db|].
  destruct (service_keeps_referential_integrity sample_db
              referential_integrity_sample_db) as (_ & _ & Hchannel & _).
  apply Hchannel.
Defined.

(** X15.  The import keeps the foreign keys too: after the loop of [main]
    over any list of files, readable or not, every stored message has its
    channel and its author stored and every channel its server. *)
Theorem import_keeps_referential_integrity (json_files : list file)
    (server_id : Z) (total : nat) (db : DB) :
  referential_integrity db →
  referential_integrity (import_files json_files server_id total db).1.
Proof.
  revert total db.
  induction json_files as [|f rest IH]; intros total db Hri; [done|].
  cbn [import_files].
  pose proof (integrity_import_json_file f server_id db Hri) as Hstep.
  destruct (import_json_file f server_id db) as [db1 r]. by apply IH.
Qed.

Lemma import_keeps_referential_integrity_witness :
  referential_integrity sample_db
  ∧ referential_integrity
      (import_files [Some file_A; None; Some file_B] 1 0 sample_db).1.
Proof.
  split; [exact referential_integrity_sample_db|].
  apply import_keeps_referential_integrity.
  exact referential_integrity_sample_db.
Defined.

(** ** The import as a whole *)

Section import_runs.

Implicit Types (db : DB) (data : ExportDoc).

(** What one call of [import_json_file] does to the store. *)
Lemma import_json_file_failed json_file server_id db db' e :
  import_json_file json_file server_id db = (db', Failed e) → db' = db.
Proof.
  unfold import_json_file. destruct json_file as [data|]; [|by intros [= <-]].
  destruct (py_int _) as [channel_id|e']; [|by intros [= <-]].
  destruct (upsert_channel _ _ _ _ _ _ _ db) as [db0 [crow|e']] eqn:Hup.
  { by destruct (import_messages _ _ _ db0). }
  apply upsert_channel_raise in Hup as [-> _]. by intros [= <-].
Qed.

Lemma import_json_file_step json_file server_id db db' r :
  import_json_file json_file server_id db = (db', r) →
  servers db' = servers db ∧ subnets db' = subnets db
  ∧ (∀ k, is_Some (channels db !! k) → is_Some (channels db' !! k))
  ∧ (∀ k, is_Some (users db !! k) → is_Some (users db' !! k))
  ∧ (∀ id row, messages db !! id = Some row → messages db' !! id = Some row)
  ∧ (size (messages db') = size (messages db) + returned r)%nat.
Proof.
  assert (Hsame : ∀ e,
    servers db = servers db ∧ subnets db = subnets db
    ∧ (∀ k, is_Some (channels db !! k) → is_Some (channels db !! k))
    ∧ (∀ k, is_Some (users db !! k) → is_Some (users db !! k))
    ∧ (∀ id row, messages db !! id = Some row → messages db !! id = Some row)
    ∧ (size (messages db) = size (messages db) + returned (Failed e))%nat).
  { intros e. cbn. split_and!; try done; lia. }
  destruct r as [c|e].
  - destruct json_file as [data|]; [|done].
    intros (channel_id & crow & _ & _ & Hloop)%import_json_file_imported.
    pose proof (import_messages_frame _ _ _ _ _ _ Hloop) as (-> & -> & ->).
    pose proof (import_messages_size _ _ _ _ _ _ Hloop) as Hsize.
    cbn in Hsize |- *. split_and!; try done.
    + intros k. apply is_Some_insert.
    + intros k [u Hu].
      rewrite (import_messages_users _ _ _ _ _ _ k Hloop). cbn.
      rewrite Hu. by destruct (last_seen_author k (records data)).
    + intros id row Hrow.
      by apply (import_messages_keeps _ _ _ _ _ _ id row Hloop).
    + lia.
  - intros Hrun. apply import_json_file_failed in Hrun as Hdb. subst db'.
    apply Hsame.
Qed.

End import_runs.

(** X16.  The loop of [main] only adds to the store, and its total counts
    what it adds: after any list of files, readable or not, the number of
    message rows has grown by exactly the amount the total has grown; every
    message row stored before is stored unchanged; no channel and no user
    row has gone; and the servers and the subnets are as before. *)
Theorem import_total_counts_the_rows_added (json_files : list file)
    (server_id : Z) (total_imported : nat) (db : DB) :
  let run := import_files json_files server_id total_imported db in
  (size (messages run.1) + total_imported = size (messages db) + run.2)%nat
  ∧ (∀ id row, messages db !! id = Some row → messages run.1 !! id = Some row)
  ∧ (∀ k, is_Some (channels db !! k) → is_Some (channels run.1 !! k))
  ∧ (∀ k, is_Some (users db !! k) → is_Some (users run.1 !! k))
  ∧ servers run.1 = servers db ∧ subnets run.1 = subnets db.
Proof.
  cbn zeta. revert total_imported db.
  induction json_files as [|f rest IH]; intros total db.
  { cbn. split_and!; try done; lia. }
  cbn [import_files].
  destruct (import_json_file f server_id db) as [db1 r] eqn:Hstep.
  apply import_json_file_step in Hstep
    as (Hsv & Hsn & Hch & Hus & Hkeep & Hsize).
  destruct (IH (total + returned r)%nat db1)
    as (IHsize & IHkeep & IHch & IHus & IHsv & IHsn).
  split_and!.
  - lia.
  - intros id row Hrow. auto.
  - intros k Hk. auto.
  - intros k Hk. auto.
  - congruence.
  - congruence.
Qed.

(** X17.  A call of [import_json_file] gets to its loop, and ends with its
    counters, exactly when the file can be read, the channel identifier in
    it is an integer, and the server row or the channel row is stored.
    Otherwise it has changed nothing and returns 0.  No record of the file
    can make the call fail. *)
Theorem import_json_file_fails_only_before_the_loop (json_file : file)
    (server_id : Z) (db : DB) :
  ((∃ db' c, import_json_file json_file server_id db = (db', Imported c))
   ↔ ∃ data channel_id,
       json_file = Some data
       ∧ channel_id_of data = Return channel_id
       ∧ (is_Some (servers db !! server_id)
          ∨ is_Some (channels db !! channel_id)))
  ∧ (∀ db' e,
       import_json_file json_file server_id db = (db', Failed e) →
       db' = db ∧ returned (Failed e) = 0%nat).
Proof.
  split; [|intros db' e Hrun; split;
            [by eapply import_json_file_failed|done]].
  split.
  - intros (db' & c & Hrun). destruct json_file as [data|]; [|done].
    apply import_json_file_imported in Hrun
      as (channel_id & crow & Hid & Hup & _).
    exists data, channel_id. repeat split; try done.
    destruct (channels db !! channel_id) as [old|] eqn:Hold; [right; eauto|].
    left. revert Hup. unfold upsert_channel, get_session, insert_channel.
    rewrite Hold. cbn.
    destruct (has_row (servers db) server_id) eqn:Hsrv; [|done].
    intros _. by apply has_row_true.
  - intros (data & channel_id & -> & Hid & Hparent).
    by eapply import_json_file_run.
Qed.

(** X18.  An import that ran its loop has rewritten the row of every author
    whose identifier it could read in the file, with what the last record
    of that author says, whether or not any message of that author was
    stored by this call; the rows of all other users are as before. *)
Theorem import_rewrites_every_author (db : DB) (server_id : Z)
    (data : ExportDoc) (db' : DB) (c : counters) (user_id : Z) :
  import_json_file (Some data) server_id db = (db', Imported c) →
  users db' !! user_id
  = match last_seen_author user_id (records data) with
    | Some user => Some user
    | None => users db !! user_id
    end.
Proof.
  intros (channel_id & crow & _ & _ & Hloop)%import_json_file_imported.
  by rewrite (import_messages_users _ _ _ _ _ _ user_id Hloop).
Qed.

Lemma import_rewrites_every_author_witness :
  let db1 := (import_json_file (Some file_A) 1 sample_db).1 in
  let db2 := (import_json_file (Some file_B) 1 db1).1 in
  u_username <$> users db1 !! 7 = Some "alice"
  ∧ u_username <$> users db2 !! 7 = Some "alice_new"
  ∧ users db2 !! 8 = users db1 !! 8.
Proof.
  cbn zeta.
  assert (Hrun :
    import_json_file (Some file_B) 1
      (import_json_file (Some file_A) 1 sample_db).1
    = ((import_json_file (Some file_B) 1
          (import_json_file (Some file_A) 1 sample_db).1).1,
       Imported (mkCounters 50 51 [])))
    by (vm_compute; reflexivity).
  split; [vm_compute; reflexivity|]. split.
  - rewrite (import_rewrites_every_author _ 1 file_B _ _ 7 Hrun).
    vm_compute. reflexivity.
  - rewrite (import_rewrites_every_author _ 1 file_B _ _ 8 Hrun).
    vm_compute. reflexivity.
Defined.

(** X19.  Which timestamp the import takes.  A record whose ['timestamp']
    key is there but empty is passed over with the warning, even when it
    has a ['timestampEdited']: only the author row is written.  A record
    without the key falls back on ['timestampEdited'], and when it is
    stored both the timestamp and the edit timestamp of the row are that
    value. *)
Theorem timestamp_key_wins_over_fallback (channel_id : Z) (msg : RawMessage)
    (db : DB) (a : Z) :
  author_id_of msg = Return a →
  (r_timestamp msg = Some TsFalsy →
   import_message channel_id msg db
   = (set_users <[a := author_row msg]> db, Return NoTimestamp))
  ∧ (∀ t db',
       r_timestamp msg = None → r_timestampEdited msg = Some (TsIso t) →
       import_message channel_id msg db = (db', Return Inserted) →
       ∃ id row,
         message_id_of msg = Return id
         ∧ messages db' !! id = Some row
         ∧ m_timestamp row = t ∧ m_edited_timestamp row = Some t).
Proof.
  intros Ha. split.
  - intros Hts. rewrite import_message_unfold, Ha. cbn zeta.
    unfold build_message_data, timestamp_str. by rewrite Hts.
  - intros t db' Hts Hed. rewrite import_message_unfold, Ha. cbn zeta.
    unfold build_message_data, timestamp_str. rewrite Hts, Hed. cbn.
    destruct (message_id_of msg) as [id|e]; [|done]. cbn.
    destruct (mention_ids _) as [ms|e]; [|done]. cbn.
    destruct (match r_reference_messageId msg with
              | Some v => rbind (py_int v) (λ z, Return (Some z))
              | None => Return None
              end) as [ref|e]; [|done]. cbn.
    match goal with |- context [insert_message ?md ?st] =>
      destruct (insert_message_cases md st)
        as [(row & -> & _ & Hrow & _)|[-> _]]
    end; [|done].
    intros [= <-]. exists id, row. cbn in Hrow |- *.
    injection Hrow as <-. cbn. by rewrite lookup_insert_eq.
Qed.

Lemma timestamp_key_wins_over_fallback_witness :
  let falsy :=
    mkRawMessage (Some (Read 5)) (Some (sample_author 7 "alice"))
      (Some TsFalsy) (Some (TsIso 1700000009)) (Some "edited") None None None
      None None None in
  let absent :=
    mkRawMessage (Some (Read 5)) (Some (sample_author 7 "alice"))
      None (Some (TsIso 1700000009)) (Some "edited") None None None
      None None None in
  let db := set_channels <[10 := mkChannel 1 None "general" None None None]>
              sample_db in
  author_id_of falsy = Return 7
  ∧ (import_message 10 falsy db).2 = Return NoTimestamp
  ∧ (import_message 10 absent db).2 = Return Inserted
  ∧ m_timestamp <$> messages (import_message 10 absent db).1 !! 5
    = Some 1700000009.
Proof.
  cbn zeta.
  assert (Ha : author_id_of
                 (mkRawMessage (Some (Read 5)) (Some (sample_author 7 "alice"))
                    (Some TsFalsy) (Some (TsIso 1700000009)) (Some "edited")
                    None None None None None None) = Return 7)
    by reflexivity.
  split; [exact Ha|]. split.
  - rewrite (proj1 (timestamp_key_wins_over_fallback 10 _
                      (set_channels
                         <[10 := mkChannel 1 None "general" None None None]>
                         sample_db) 7 Ha) eq_refl).
    reflexivity.
  - split; vm_compute; reflexivity.
Defined.

(** ** The status of the exports *)

Section status.

Implicit Types (json_files : list (string * file)).

Lemma stats_loop_counts last_file n json_files total last_id :
  let stats := stats_loop last_file n json_files total last_id in
  st_files stats = n
  ∧ st_messages stats
    = (total + message_total (readable_prefix json_files))%nat
  ∧ (st_status stats = complete ↔ ∀ f, f ∈ json_files → is_Some f.2)
  ∧ (st_status stats = corrupted ↔ ∃ f, f ∈ json_files ∧ f.2 = None)
  ∧ st_status stats ≠ not_exported ∧ st_status stats ≠ empty_export.
Proof.
  cbn zeta. revert total last_id.
  induction json_files as [|[name content] rest IH]; intros total last_id.
  { cbn. split_and!; try done.
    - split; [|done]. intros _ f Hf. by apply elem_of_nil in Hf.
    - split; [done|]. intros (f & Hf & _). by apply elem_of_nil in Hf. }
  cbn [stats_loop readable_prefix]. destruct content as [data|]; cbn [snd].
  - match goal with |- context [stats_loop _ _ rest ?t ?l] =>
      destruct (IH t l) as (Hn & Hm & Hc & Hk & Hne1 & Hne2)
    end.
    split_and!; try done.
    + rewrite Hm.
      change (message_total ((name, Some data) :: readable_prefix rest))
        with (List.length (records data)
              + message_total (readable_prefix rest))%nat.
      unfold records. lia.
    + rewrite Hc. split.
      * intros Hall f [->|Hf]%elem_of_cons; [cbn; eauto|auto].
      * intros Hall f Hf. apply Hall. by right.
    + rewrite Hk. split.
      * intros (f & Hf & Hnone). exists f. split; [by right|done].
      * intros (f & [->|Hf]%elem_of_cons & Hnone); [done|eauto].
  - cbn. split_and!; try done.
    + split; [done|]. intros Hall.
      destruct (Hall (name, None)) as [? ?]; [by left|done].
    + split; [|done]. intros _. exists (name, None). split; [by left|done].
Qed.

(** The identifier the loop ends with when no file it reads has the name
    of the last file. *)
Lemma stats_loop_other_names last_file n json_files total last_id :
  (∀ f, f ∈ readable_prefix json_files → f.1 ≠ last_file) →
  st_last_message_id (stats_loop last_file n json_files total last_id)
  = last_id.
Proof.
  revert total last_id.
  induction json_files as [|[name content] rest IH]; intros total last_id Hne;
    [done|].
  cbn [stats_loop]. destruct content as [data|]; cbn [snd fst]; [|done].
  cbn [readable_prefix snd] in Hne.
  assert (name ≠ last_file) as Hname.
  { apply (Hne (name, Some data)). by left. }
  apply String.eqb_neq in Hname. rewrite Hname.
  apply IH. intros f Hf. apply Hne. by right.
Qed.

Lemma readable_prefix_snoc pre l f :
  f ∈ readable_prefix (pre ++ [l]) →
  f ∈ pre ∨ ∀ g, g ∈ pre ++ [l] → is_Some g.2.
Proof.
  induction pre as [|[n c] pre IH]; cbn [app readable_prefix].
  - destruct l as [n [d|]]; cbn [snd]; [|by intros ?%elem_of_nil].
    intros _. right. intros g ->%list_elem_of_singleton. cbn. eauto.
  - destruct c as [d|]; cbn [snd]; [|by intros ?%elem_of_nil].
    intros [->|Hf]%elem_of_cons; [left; by left|].
    destruct (IH Hf) as [Hin|Hall]; [left; by right|].
    right. intros g [->|Hg]%elem_of_cons; [cbn; eauto|auto].
Qed.

Lemma stats_loop_last last_file n pre l total last_id :
  (∀ f, f ∈ pre → f.1 ≠ last_file) →
  (∀ f, f ∈ pre → is_Some f.2) →
  l.1 = last_file →
  st_last_message_id (stats_loop last_file n (pre ++ [l]) total last_id)
  = match l.2 with
    | Some data =>
        match last (records data) with
        | Some last_message => r_id last_message
        | None => last_id
        end
    | None => last_id
    end.
Proof.
  revert total last_id.
  induction pre as [|[name content] rest IH]; intros total last_id Hne Hall Hl.
  - destruct l as [name [data|]]; cbn in Hl |- *; [|done].
    subst last_file. rewrite String.eqb_refl. unfold records.
    by destruct (last (default [] (d_messages data))).
  - cbn [app stats_loop].
    destruct (Hall (name, content)) as [data Hdata]; [by left|].
    cbn in Hdata. subst content. cbn [snd fst].
    assert (name ≠ last_file) as Hname.
    { apply (Hne (name, Some data)). by left. }
    apply String.eqb_neq in Hname. rewrite Hname.
    apply IH; [| |done].
    + intros f Hf. apply Hne. by right.
    + intros f Hf. apply Hall. by right.
Qed.

Lemma NoDup_sorted_names (entries : list (string * file)) :
  NoDup entries.*1 → NoDup (sorted (glob_json entries)).*1.
Proof.
  intros Hnodup. unfold sorted.
  rewrite (merge_sort_Permutation path_le (glob_json entries)).
  unfold glob_json. clear -Hnodup.
  induction entries as [|[n e] rest IH]; [constructor|].
  cbn in Hnodup. apply NoDup_cons in Hnodup as [Hn Hrest].
  rewrite filter_cons. case_decide; [|by apply IH].
  cbn. apply NoDup_cons. split; [|by apply IH].
  intros ([n' e'] & -> & [_ Hin]%list_elem_of_filter)%list_elem_of_fmap.
  apply Hn. apply list_elem_of_fmap. by exists (n', e').
Qed.

End status.

(** X20.  What [get_channel_stats] reports.  Without an entry of the folder
    name the channel is not exported.  With one, the status is [empty] just
    when the folder holds no name ending in [.json]; [corrupted] just when
    one of these files does not load; [complete] just when there is one and
    all of them load.  The number of files is that of all of them, but the
    number of messages counts the files only up to the first one that does
    not load. *)
Theorem channel_stats_of_the_files (OUTPUT_DIR : exports)
    (channel_name : string) :
  let stats := get_channel_stats OUTPUT_DIR channel_name in
  match channel_files OUTPUT_DIR channel_name with
  | None => stats = mkStats not_exported 0 0 None
  | Some json_files =>
      (st_status stats = empty_export ↔ json_files = [])
      ∧ (st_status stats = corrupted ↔ ∃ f, f ∈ json_files ∧ f.2 = None)
      ∧ (st_status stats = complete
         ↔ json_files ≠ [] ∧ ∀ f, f ∈ json_files → is_Some f.2)
      ∧ st_status stats ≠ not_exported
      ∧ st_files stats = List.length json_files
      ∧ st_messages stats = message_total (readable_prefix json_files)
  end.
Proof.
  cbn zeta. unfold get_channel_stats, channel_files.
  destruct (lookup_entry (sanitize channel_name) OUTPUT_DIR) as [dir|]; [|done].
  generalize (sorted (glob_json match dir with
                                | Dir entries => entries
                                | File _ => []
                                end)).
  intros json_files.
  destruct (last json_files) as [last_file|] eqn:Hlast.
  - destruct (stats_loop_counts last_file.1 (List.length json_files) json_files
                0 None) as (Hn & Hm & Hc & Hk & Hne1 & Hne2).
    assert (json_files ≠ []) as Hnonempty.
    { intros ->. cbn in Hlast. done. }
    split_and!; try done.
    + rewrite Hc. naive_solver.
  - assert (json_files = []) as ->.
    { destruct json_files as [|f l]; [done|].
      assert (is_Some (last (f :: l))) as [? ?] by by apply last_is_Some.
      congruence. }
    cbn. split_and!; try done.
    + split; [done|]. intros (f & Hf & _). by apply elem_of_nil in Hf.
    + split; [done|]. by intros [? _].
Qed.

(** X21.  In a folder with distinct names, the last message identifier that
    the status checker reports is the checkpoint of the exporter
    ([get_last_message_id]) whenever the status is not [corrupted].  On a
    corrupted export it reports none, also when the last file loads and the
    exporter would resume from its last message. *)
Theorem stats_agree_with_the_checkpoint (OUTPUT_DIR : exports)
    (channel_name : string) :
  (∀ entries,
     lookup_entry (sanitize channel_name) OUTPUT_DIR = Some (Dir entries) →
     NoDup entries.*1) →
  let stats := get_channel_stats OUTPUT_DIR channel_name in
  (st_status stats ≠ corrupted →
   st_last_message_id stats = get_last_message_id OUTPUT_DIR channel_name)
  ∧ (st_status stats = corrupted → st_last_message_id stats = None).
Proof.
  intros Hnodup. cbn zeta.
  unfold get_channel_stats, get_last_message_id.
  destruct (lookup_entry (sanitize channel_name) OUTPUT_DIR) as [dir|];
    [|done].
  assert (NoDup (sorted (glob_json match dir with
                                   | Dir entries => entries
                                   | File _ => []
                                   end)).*1) as Hnames.
  { destruct dir as [content|entries].
    - apply (NoDup_sorted_names []). constructor.
    - apply NoDup_sorted_names. by apply Hnodup. }
  revert Hnames.
  generalize (sorted (glob_json match dir with
                                | Dir entries => entries
                                | File _ => []
                                end)).
  intros json_files Hnames.
  destruct (last json_files) as [last_file|] eqn:Hlast; [|done].
  apply last_Some in Hlast as [pre Hfiles]. rewrite Hfiles in Hnames |- *.
  rewrite fmap_app in Hnames. apply NoDup_app in Hnames as (_ & Hdisj & _).
  assert (Hother : ∀ f, f ∈ pre → f.1 ≠ last_file.1).
  { intros f Hf Heq. apply (Hdisj f.1).
    - apply list_elem_of_fmap. by exists f.
    - rewrite Heq. cbn. by left. }
  destruct (stats_loop_counts last_file.1 (List.length (pre ++ [last_file]))
              (pre ++ [last_file]) 0 None) as (_ & _ & Hc & Hk & Hne1 & Hne2).
  split.
  - intros Hnot.
    assert (st_status (stats_loop last_file.1 (List.length (pre ++ [last_file]))
                         (pre ++ [last_file]) 0 None) = complete) as Hcomplete.
    { destruct (st_status _); done. }
    rewrite Hc in Hcomplete.
    rewrite stats_loop_last; [|done| |done].
    + unfold records. destruct (last_file.2) as [data|]; [|done].
      by destruct (last (default [] (d_messages data))).
    + intros f Hf. apply Hcomplete. apply elem_of_app. by left.
  - intros Hcorrupted. apply stats_loop_other_names.
    intros f Hf Hname.
    rewrite Hk in Hcorrupted.
    destruct (readable_prefix_snoc _ _ _ Hf) as [Hin|Hall];
      [by apply (Hother f)|].
    destruct Hcorrupted as (g & Hg & Hnone).
    destruct (Hall g Hg) as [? ?]. congruence.
Qed.

Lemma stats_agree_with_the_checkpoint_witness :
  let OUTPUT_DIR :=
    [("general",
      Dir [("general.json", Some file_A);
           ("general [part 2].json", Some file_B)])] in
  (∀ entries,
     lookup_entry (sanitize "general") OUTPUT_DIR = Some (Dir entries) →
     NoDup entries.*1)
  ∧ st_last_message_id (get_channel_stats OUTPUT_DIR "general")
    = get_last_message_id OUTPUT_DIR "general"
  ∧ get_last_message_id OUTPUT_DIR "general" = Some (Read 100).
Proof.
  cbn zeta.
  assert (Hnodup : ∀ entries,
    lookup_entry (sanitize "general")
      [("general",
        Dir [("general.json", Some file_A);
             ("general [part 2].json", Some file_B)])] = Some (Dir entries) →
    NoDup entries.*1).
  { intros entries [= <-]. cbn. repeat constructor; set_solver. }
  split; [exact Hnodup|]. split; [|vm_compute; reflexivity].
  apply (proj1 (stats_agree_with_the_checkpoint _ "general" Hnodup)).
  vm_compute. discriminate.
Defined.

(** ** The lists of the two scripts *)

Section lists.

Lemma select_channels_filters resume_mode skip_list OUTPUT_DIR channels sel :
  let sel' := foldl (select_channel resume_mode skip_list OUTPUT_DIR) sel
                channels in
  skipped_forbidden sel'
  = skipped_forbidden sel
    ++ (ch_name <$> filter (λ c, ch_channel_id c ∈ skip_list) channels)
  ∧ to_export sel'
    = to_export sel
      ++ filter (λ c, (ch_channel_id c ∉ skip_list)
                      ∧ (resume_mode = true
                         ∨ check_already_exported OUTPUT_DIR (ch_name c)
                           = false)) channels
  ∧ already_exported sel'
    = already_exported sel
      ++ (ch_name <$>
          filter (λ c, (ch_channel_id c ∉ skip_list) ∧ resume_mode = false
                       ∧ check_already_exported OUTPUT_DIR (ch_name c) = true)
            channels)
  ∧ partial_exports sel'
    = partial_exports sel
      ++ (ch_name <$>
          filter (λ c, (ch_channel_id c ∉ skip_list) ∧ resume_mode = true
                       ∧ check_already_exported OUTPUT_DIR (ch_name c) = true)
            channels).
Proof.
  cbn zeta. revert sel.
  induction channels as [|x rest IH]; intros sel; cbn [foldl].
  { cbn. by rewrite !app_nil_r. }
  destruct (IH (select_channel resume_mode skip_list OUTPUT_DIR sel x))
    as (-> & -> & -> & ->).
  clear IH. rewrite !filter_cons. unfold select_channel.
  case_bool_decide as Hskip.
  { rewrite decide_True by done.
    rewrite !decide_False by (intros [? _]; done).
    cbn. by rewrite <- !app_assoc. }
  rewrite (decide_False (P := ch_channel_id x ∈ skip_list)) by done.
  destruct resume_mode,
    (check_already_exported OUTPUT_DIR (ch_name x)) eqn:Hcheck; cbn;
    repeat case_decide; try (exfalso; intuition congruence); cbn;
    by rewrite <- ?app_assoc.
Qed.

Lemma select_channels_lengths resume_mode skip_list OUTPUT_DIR channels sel :
  let sel' := foldl (select_channel resume_mode skip_list OUTPUT_DIR) sel
                channels in
  (List.length (to_export sel') + List.length (already_exported sel')
   + List.length (skipped_forbidden sel')
   = List.length (to_export sel) + List.length (already_exported sel)
     + List.length (skipped_forbidden sel) + List.length channels)%nat.
Proof.
  cbn zeta. revert sel.
  induction channels as [|x rest IH]; intros sel; cbn [foldl].
  { cbn. lia. }
  rewrite IH. clear IH. unfold select_channel.
  case_bool_decide; cbn; [rewrite length_app; cbn; lia|].
  destruct resume_mode, (check_already_exported OUTPUT_DIR (ch_name x)); cbn;
    rewrite ?length_app; cbn; lia.
Qed.

Lemma file_channels_filters OUTPUT_DIR channels lists :
  let status c := st_status (get_channel_stats OUTPUT_DIR (ch_name c)) in
  let lists' := foldl (file_channel OUTPUT_DIR) lists channels in
  sl_not_exported lists'
  = sl_not_exported lists ++ filter (λ c, status c = not_exported) channels
  ∧ sl_empty lists'
    = sl_empty lists ++ filter (λ c, status c = empty_export) channels
  ∧ sl_corrupted lists'
    = sl_corrupted lists ++ filter (λ c, status c = corrupted) channels
  ∧ sl_complete lists'
    = sl_complete lists ++ filter (λ c, status c = complete) channels.
Proof.
  cbn zeta. revert lists.
  induction channels as [|x rest IH]; intros lists; cbn [foldl].
  { cbn. by rewrite !app_nil_r. }
  destruct (IH (file_channel OUTPUT_DIR lists x)) as (-> & -> & -> & ->).
  clear IH. rewrite !filter_cons. unfold file_channel.
  destruct (st_status (get_channel_stats OUTPUT_DIR (ch_name x))); cbn;
    repeat case_decide; try done; by rewrite <- ?app_assoc.
Qed.

Lemma file_channels_lengths OUTPUT_DIR channels lists :
  let lists' := foldl (file_channel OUTPUT_DIR) lists channels in
  (List.length (sl_not_exported lists') + List.length (sl_empty lists')
   + List.length (sl_corrupted lists') + List.length (sl_complete lists')
   = List.length (sl_not_exported lists) + List.length (sl_empty lists)
     + List.length (sl_corrupted lists) + List.length (sl_complete lists)
     + List.length channels)%nat.
Proof.
  cbn zeta. revert lists.
  induction channels as [|x rest IH]; intros lists; cbn [foldl].
  { cbn. lia. }
  rewrite IH. clear IH. unfold file_channel.
  destruct (st_status (get_channel_stats OUTPUT_DIR (ch_name x))); cbn;
    rewrite ?length_app; cbn; lia.
Qed.

End lists.

(** X22.  The first loop of the exporter files every channel of the
    configuration once, in the order of the configuration: under the
    forbidden channels when its identifier is on the skip list; otherwise
    under the channels to export, unless the run is not a resume and the
    channel counts as exported, when it goes under the already exported
    ones.  On a resume every channel off the skip list is exported, none is
    listed as already exported, and the partial exports are those that
    count as exported; without resume no partial export is listed. *)
Theorem selection_files_every_channel_once (resume_mode : bool)
    (skip_list : gset string) (OUTPUT_DIR : exports)
    (channels : list channel_entry) :
  let sel := select_channels resume_mode skip_list OUTPUT_DIR channels in
  skipped_forbidden sel
  = (ch_name <$> filter (λ c, ch_channel_id c ∈ skip_list) channels)
  ∧ to_export sel
    = filter (λ c, (ch_channel_id c ∉ skip_list)
                   ∧ (resume_mode = true
                      ∨ check_already_exported OUTPUT_DIR (ch_name c) = false))
        channels
  ∧ already_exported sel
    = (ch_name <$>
       filter (λ c, (ch_channel_id c ∉ skip_list) ∧ resume_mode = false
                    ∧ check_already_exported OUTPUT_DIR (ch_name c) = true)
         channels)
  ∧ partial_exports sel
    = (ch_name <$>
       filter (λ c, (ch_channel_id c ∉ skip_list) ∧ resume_mode = true
                    ∧ check_already_exported OUTPUT_DIR (ch_name c) = true)
         channels)
  ∧ (List.length (to_export sel) + List.length (already_exported sel)
     + List.length (skipped_forbidden sel) = List.length channels)%nat.
Proof.
  cbn zeta. unfold select_channels.
  destruct (select_channels_filters resume_mode skip_list OUTPUT_DIR channels
              (mkSelection [] [] [] [])) as (-> & -> & -> & ->).
  split_and!; try done.
  pose proof (select_channels_lengths resume_mode skip_list OUTPUT_DIR channels
                (mkSelection [] [] [] [])) as Hlen.
  cbn zeta in Hlen.
  destruct (select_channels_filters resume_mode skip_list OUTPUT_DIR channels
              (mkSelection [] [] [] [])) as (Hs & Ht & Ha & _).
  rewrite Hs, Ht, Ha in Hlen. cbn in Hlen. exact Hlen.
Qed.

(** X23.  The status checker files every channel of the configuration
    under exactly one of its four lists, the one of the status that
    [get_channel_stats] gives it, in the order of the configuration; so the
    four counts of its summary add up to the total it prints. *)
Theorem status_lists_file_every_channel_once (OUTPUT_DIR : exports)
    (channels : list channel_entry) :
  let status c := st_status (get_channel_stats OUTPUT_DIR (ch_name c)) in
  let lists := file_channels OUTPUT_DIR channels in
  sl_not_exported lists = filter (λ c, status c = not_exported) channels
  ∧ sl_empty lists = filter (λ c, status c = empty_export) channels
  ∧ sl_corrupted lists = filter (λ c, status c = corrupted) channels
  ∧ sl_complete lists = filter (λ c, status c = complete) channels
  ∧ (List.length (sl_complete lists) + List.length (sl_not_exported lists)
     + List.length (sl_empty lists) + List.length (sl_corrupted lists)
     = List.length channels)%nat.
Proof.
  cbn zeta. unfold file_channels.
  pose proof (file_channels_lengths OUTPUT_DIR channels
                (mkStatusLists [] [] [] [])) as Hlen.
  cbn zeta in Hlen. cbn in Hlen.
  destruct (file_channels_filters OUTPUT_DIR channels
              (mkStatusLists [] [] [] [])) as (H1 & H2 & H3 & H4).
  cbn in H1, H2, H3, H4.
  split_and!; try done. lia.
Qed.

(** ** The folder of a channel *)

Section folders.

Lemma lookup_entry_elem {A} (name : string) (entries : list (string * A)) e :
  lookup_entry name entries = Some e → (name, e) ∈ entries.
Proof.
  induction entries as [|[n x] rest IH]; cbn [lookup_entry]; [done|].
  destruct (String.eqb n name) eqn:Hn.
  - apply String.eqb_eq in Hn as ->. intros [= ->]. by left.
  - intros He. right. by apply IH.
Qed.

Lemma sanitize_clean (s : string) :
  has_char "/" s = false → has_char "\" s = false → has_char ":" s = false →
  sanitize s = s.
Proof.
  induction s as [|c s IH]; [done|]. cbn [has_char sanitize].
  intros [H1 H1']%orb_false_elim [H2 H2']%orb_false_elim
    [H3 H3']%orb_false_elim.
  rewrite H1, H2, H3, IH by done. done.
Qed.

Lemma append_empty_r (s : string) : s +:+ "" = s.
Proof. induction s as [|c s IH]; [done|]. by rewrite append_cons, IH. Qed.

Lemma has_char_append (c : ascii) (a b : string) :
  has_char c (a +:+ b) = has_char c a || has_char c b.
Proof.
  induction a as [|x a IH]; [done|].
  rewrite append_cons. cbn [has_char]. by rewrite IH, orb_assoc.
Qed.

Lemma lower_ascii_separator (c sep : ascii) :
  sep ∈ ["/"; "\"; ":"]%char →
  Ascii.eqb (lower_ascii c) sep = Ascii.eqb c sep.
Proof.
  intros Hsep.
  repeat (apply elem_of_cons in Hsep as [->|Hsep]);
    [| | |by apply elem_of_nil in Hsep];
    destruct c as [[] [] [] [] [] [] [] []]; vm_compute; reflexivity.
Qed.

Lemma has_char_lower (sep : ascii) (s : string) :
  sep ∈ ["/"; "\"; ":"]%char →
  has_char sep (lower s) = has_char sep s.
Proof.
  intros Hsep. induction s as [|c s IH]; [done|].
  cbn [lower has_char]. by rewrite IH, lower_ascii_separator.
Qed.

End folders.

(** X24.  A channel whose name holds none of the characters that the folder
    name replaces (the slash, the backslash and the colon), and that the
    status checker does not report as not exported, counts as exported for
    the exporter: without resume, the exporter does not export it. *)
Theorem exported_channel_is_recognised (OUTPUT_DIR : exports)
    (channel_name : string) :
  has_char "/" channel_name = false →
  has_char "\" channel_name = false →
  has_char ":" channel_name = false →
  st_status (get_channel_stats OUTPUT_DIR channel_name) ≠ not_exported →
  check_already_exported OUTPUT_DIR channel_name = true
  ∧ ∀ skip_list channels c,
      ch_name c = channel_name →
      c ∉ to_export (select_channels false skip_list OUTPUT_DIR channels).
Proof.
  intros H1 H2 H3 Hstatus.
  assert (check_already_exported OUTPUT_DIR channel_name = true) as Hcheck.
  { revert Hstatus. unfold get_channel_stats.
    rewrite sanitize_clean by done.
    destruct (lookup_entry channel_name OUTPUT_DIR) as [dir|] eqn:Hdir;
      [|done].
    intros _. apply lookup_entry_elem in Hdir.
    apply check_already_exported_spec.
    exists (channel_name, dir), "", "". split; [done|].
    cbn [fst]. by rewrite append_empty, append_empty_r. }
  split; [done|].
  intros skip_list channels c Hname. unfold select_channels.
  rewrite select_channels_to_export. cbn. rewrite elem_of_nil.
  rewrite Hname, Hcheck. intros [[]|(_ & _ & [?|?])]; done.
Qed.

Lemma exported_channel_is_recognised_witness :
  let OUTPUT_DIR := [("general", Dir [("general.json", Some file_A)])] in
  st_status (get_channel_stats OUTPUT_DIR "general") = complete
  ∧ check_already_exported OUTPUT_DIR "general" = true.
Proof.
  cbn zeta. split; [vm_compute; reflexivity|].
  apply (exported_channel_is_recognised
           [("general", Dir [("general.json", Some file_A)])] "general");
    try reflexivity.
  vm_compute. discriminate.
Defined.

(** X25.  A channel whose name holds a slash, a backslash or a colon never
    counts as exported when no entry of the exports directory has that
    character in its name, as is the case for the folders the exporter
    makes: the folder name has a hyphen in its place, and the test looks
    for the name as it is.  Without resume, such a channel is exported
    again on every run, unless it is on the skip list. *)
Theorem channel_with_separator_is_exported_again (OUTPUT_DIR : exports)
    (channel_name : string) (sep : ascii) :
  sep ∈ ["/"; "\"; ":"]%char →
  has_char sep channel_name = true →
  (∀ item, item ∈ OUTPUT_DIR → has_char sep item.1 = false) →
  has_char sep (sanitize channel_name) = false
  ∧ check_already_exported OUTPUT_DIR channel_name = false
  ∧ ∀ skip_list channels c,
      c ∈ channels → ch_name c = channel_name →
      ch_channel_id c ∉ skip_list →
      c ∈ to_export (select_channels false skip_list OUTPUT_DIR channels).
Proof.
  intros Hsep Hhas Hitems.
  assert (check_already_exported OUTPUT_DIR channel_name = false) as Hcheck.
  { destruct (check_already_exported OUTPUT_DIR channel_name) eqn:Hcheck;
      [|done].
    apply check_already_exported_spec in Hcheck
      as (item & pre & post & Hin & Hsub).
    pose proof (Hitems item Hin) as Hnone.
    rewrite <- (has_char_lower sep) in Hnone by done.
    rewrite Hsub, !has_char_append, (has_char_lower sep), Hhas in Hnone
      by done.
    by rewrite orb_true_r in Hnone. }
  split_and!; [|done|].
  - clear -Hsep. induction channel_name as [|c s IH]; [done|].
    cbn [sanitize has_char]. rewrite IH, orb_false_r.
    repeat (apply elem_of_cons in Hsep as [->|Hsep]);
      [| | |by apply elem_of_nil in Hsep];
      destruct c as [[] [] [] [] [] [] [] []]; vm_compute; reflexivity.
  - intros skip_list channels c Hin Hname Hskip. unfold select_channels.
    apply select_channels_to_export. right. rewrite Hname. auto.
Qed.

Lemma channel_with_separator_is_exported_again_witness :
  let OUTPUT_DIR :=
    [("Subnet-23-general", Dir [("Subnet-23-general.json", Some file_A)])] in
  let c := mkChannelEntry "Subnet/23:general" "111" in
  sanitize (ch_name c) = "Subnet-23-general"
  ∧ st_status (get_channel_stats OUTPUT_DIR (ch_name c)) = complete
  ∧ c ∈ to_export (select_channels false ∅ OUTPUT_DIR [c]).
Proof.
  cbn zeta. split; [reflexivity|]. split; [vm_compute; reflexivity|].
  assert (Hsep : "/"%char ∈ ["/"; "\"; ":"]%char) by (by left).
  assert (Hhas : has_char "/" "Subnet/23:general" = true) by reflexivity.
  assert (Hitems : ∀ item : string * fs_entry,
            item ∈ [("Subnet-23-general",
                     Dir [("Subnet-23-general.json", Some file_A)])] →
            has_char "/" item.1 = false).
  { intros item ->%list_elem_of_singleton. reflexivity. }
  apply (proj2 (proj2 (channel_with_separator_is_exported_again _ _ _
                         Hsep Hhas Hitems))).
  - by left.
  - reflexivity.
  - set_solver.
Defined.

(** ** The skip file *)

Section skip_file.

Lemma string_append_assoc (a b c : string) :
  (a +:+ b) +:+ c = a +:+ (b +:+ c).
Proof. induction a as [|x a IH]; [done|]. by rewrite !append_cons, IH. Qed.

Lemma lines_nil (text : string) : lines text = [] → text = "".
Proof.
  destruct text as [|c text]; [done|]. cbn [lines].
  destruct (is_newline c); [done|]. by destruct (lines text).
Qed.

Lemma lines_append (a b : string) :
  terminated a = true → lines (a +:+ b) = lines a ++ lines b.
Proof.
  induction a as [|c a IH]; [done|].
  intros Hterm. rewrite append_cons. cbn [lines].
  destruct a as [|c' a'].
  - cbn in Hterm. rewrite Hterm. by rewrite append_empty.
  - change (terminated (String c' a') = true) in Hterm.
    rewrite IH by done. destruct (is_newline c); [done|].
    destruct (lines (String c' a')) eqn:Hl; [by apply lines_nil in Hl|done].
Qed.

Lemma lines_line (line rest : string) :
  has_char "010" line = false → has_char "013" line = false →
  lines (line +:+ String "010" rest) = line :: lines rest.
Proof.
  induction line as [|c line IH]; [done|]. cbn [has_char].
  intros [H1 H1']%orb_false_elim [H2 H2']%orb_false_elim.
  rewrite append_cons. cbn [lines]. unfold is_newline at 1.
  rewrite H1, H2. cbn [orb]. by rewrite IH.
Qed.

Lemma terminated_append (a : string) (c : ascii) (b : string) :
  terminated (a +:+ String c b) = terminated (String c b).
Proof.
  induction a as [|x a IH]; [done|]. rewrite append_cons.
  destruct (a +:+ String c b) as [|y r] eqn:Heq; [by destruct a|].
  change (terminated (String y r) = terminated (String c b)).
  by rewrite <- IH.
Qed.

Lemma terminated_written (channel_ids : list string) :
  terminated (written channel_ids) = true.
Proof.
  induction channel_ids as [|x rest IH]; [done|]. cbn [written].
  rewrite terminated_append. by destruct (written rest).
Qed.

Lemma written_lines (a : string) (channel_ids : list string) (line : string) :
  terminated a = true → line ∈ channel_ids →
  has_char "010" line = false → has_char "013" line = false →
  line ∈ lines (a +:+ written channel_ids).
Proof.
  intros Ha Hin H1 H2. rewrite lines_append by done.
  apply elem_of_app. right. clear a Ha.
  induction channel_ids as [|x rest IH]; [by apply elem_of_nil in Hin|].
  cbn [written]. apply elem_of_cons in Hin as [<-|Hin].
  - rewrite lines_line by done. by left.
  - change (x +:+ String "010" (written rest))
      with (x +:+ (String "010" "" +:+ written rest)).
    rewrite <- string_append_assoc, lines_append.
    + apply elem_of_app. right. by apply IH.
    + by rewrite terminated_append.
Qed.

Lemma export_channels_forbidden attempts t :
  let t' := export_channels attempts t in
  (∀ id, id ∈ forbidden_channels t → id ∈ forbidden_channels t')
  ∧ (∀ channel outcome,
       (channel, outcome) ∈ attempts → export_channel outcome = (false, true) →
       ch_channel_id channel ∈ forbidden_channels t').
Proof.
  cbn zeta. revert t.
  induction attempts as [|[c o] rest IH]; intros t; cbn [export_channels].
  { split; [done|]. by intros ? ? ?%elem_of_nil. }
  destruct (export_channel o) as [success is_forbidden] eqn:Ho.
  match goal with |- context [export_channels rest ?t1] =>
    destruct (IH t1) as [IHkeep IHnew]
  end.
  split.
  - intros id Hid. apply IHkeep.
    destruct success; [done|]. cbn.
    destruct is_forbidden; [|done]. apply elem_of_app. by left.
  - intros channel outcome [[= -> ->]|Hin]%elem_of_cons Hout; [|by eauto].
    apply IHkeep. rewrite Ho in Hout. injection Hout as -> ->. cbn.
    apply elem_of_app. right. by left.
Qed.

End skip_file.

(** X26.  A channel that the export tool refused (exit code 1 and the word
    [forbidden] in its error output, in any case of letters) is on the skip
    list of the next run, and so is never among the channels to export
    again; and what was on the skip list stays on it.  This holds when the
    skip file, if there is one, is empty or ends with a line end, as the
    exporter leaves it, and the identifier of the channel is one line. *)
Theorem forbidden_channel_is_skipped_next_run (skip_list_file : option string)
    (attempts : list (channel_entry * run_outcome)) (channel : channel_entry)
    (stderr : string) :
  terminated (default "" skip_list_file) = true →
  (channel, Completed 1 stderr) ∈ attempts →
  contains "forbidden" (lower stderr) = true →
  one_line (ch_channel_id channel) →
  let skip_list := load_skip_list skip_list_file in
  let totals := export_channels attempts (mkExportTotals 0 0 []) in
  let skip_list' :=
    load_skip_list
      (save_skip_list skip_list_file skip_list (forbidden_channels totals)) in
  ch_channel_id channel ∈ forbidden_channels totals
  ∧ ch_channel_id channel ∈ skip_list'
  ∧ skip_list ⊆ skip_list'
  ∧ ∀ resume_mode OUTPUT_DIR channels,
      channel ∉ to_export
                  (select_channels resume_mode skip_list' OUTPUT_DIR channels).
Proof.
  intros Hterm Hin Hstderr (Hne & Hstrip & Hlf & Hcr). cbn zeta.
  assert (Hforbidden :
    ch_channel_id channel
    ∈ forbidden_channels (export_channels attempts (mkExportTotals 0 0 []))).
  { apply (proj2 (export_channels_forbidden attempts (mkExportTotals 0 0 []))
             channel (Completed 1 stderr) Hin).
    cbn. by rewrite Hstderr. }
  set (forbidden :=
         forbidden_channels (export_channels attempts (mkExportTotals 0 0 [])))
    in *.
  assert (Hsub : load_skip_list skip_list_file
                 ⊆ load_skip_list
                     (save_skip_list skip_list_file
                        (load_skip_list skip_list_file) forbidden)).
  { unfold save_skip_list. destruct forbidden as [|f fs]; [done|].
    destruct skip_list_file as [text|]; [|set_solver].
    cbn [default load_skip_list] in Hterm |- *.
    rewrite lines_append, fmap_app, filter_app, list_to_set_app_L by done.
    set_solver. }
  assert (Hnew : ch_channel_id channel
                 ∈ load_skip_list
                     (save_skip_list skip_list_file
                        (load_skip_list skip_list_file) forbidden)).
  { destruct (decide (ch_channel_id channel ∈ load_skip_list skip_list_file))
      as [Hold|Hnot]; [by apply Hsub|].
    unfold save_skip_list.
    destruct forbidden as [|f fs] eqn:Hf; [by apply elem_of_nil in Hforbidden|].
    rewrite <- Hf in *. cbn [load_skip_list].
    apply elem_of_list_to_set, list_elem_of_filter. split; [done|].
    rewrite <- Hstrip at 1. apply list_elem_of_fmap_2.
    apply written_lines; [done| |done|done].
    apply list_elem_of_filter. done. }
  split_and!; [done..|].
  intros resume_mode OUTPUT_DIR channels. unfold select_channels.
  rewrite select_channels_to_export. cbn. rewrite elem_of_nil.
  intros [[]|(_ & Hskip & _)]. done.
Qed.

Lemma forbidden_channel_is_skipped_next_run_witness :
  let c := mkChannelEntry "private" "222" in
  let attempts :=
    [(mkChannelEntry "general" "111", Completed 0 "");
     (c, Completed 1 "Error: Forbidden (403)")] in
  let skip_file := Some (String "3" (String "010" "")) in
  let skip_file' :=
    save_skip_list skip_file (load_skip_list skip_file)
      (forbidden_channels (export_channels attempts (mkExportTotals 0 0 []))) in
  one_line "222"
  ∧ skip_file' = Some ("3" +:+ String "010" ("222" +:+ String "010" ""))
  ∧ load_skip_list skip_file' = {["3"; "222"]}
  ∧ c ∉ to_export (select_channels true (load_skip_list skip_file') [] [c]).
Proof.
  cbn zeta.
  assert (Hline : one_line "222") by (split_and!; done).
  assert (Hterm : terminated (default "" (Some (String "3" (String "010" ""))))
                  = true) by reflexivity.
  assert (Hin : (mkChannelEntry "private" "222",
                 Completed 1 "Error: Forbidden (403)")
                ∈ [(mkChannelEntry "general" "111", Completed 0 "");
                   (mkChannelEntry "private" "222",
                    Completed 1 "Error: Forbidden (403)")])
    by (right; left).
  assert (Hstderr : contains "forbidden" (lower "Error: Forbidden (403)") = true)
    by reflexivity.
  split; [exact Hline|].
  split; [vm_compute; reflexivity|].
  split; [vm_compute; reflexivity|].
  destruct (forbidden_channel_is_skipped_next_run _ _ _ _
              Hterm Hin Hstderr Hline) as (_ & _ & _ & Hskip).
  apply Hskip.
Defined.

(** X27.  The batch import stores nothing: for whatever files it is given
    it leaves the store as it found it, reports no imported and no skipped
    message, and counts every file as failed. *)
Theorem batch_import_stores_nothing (json_files : list file) (t : batch_totals)
    (db : DB) :
  batch_import_files json_files t db
  = (db,
     mkBatchTotals (total_imported t) (total_skipped t) (successful_files t)
       (failed_files t + List.length json_files)).
Proof.
  revert t. induction json_files as [|f rest IH]; intros t.
  { cbn. destruct t. cbn. do 2 f_equal. lia. }
  cbn [batch_import_files].
  assert (batch_import_json_file f db = (db, (0, 0))%nat) as ->.
  { unfold batch_import_json_file. destruct f as [data|]; [|done].
    by destruct (d_channel data), (d_messages data). }
  cbn. rewrite IH. cbn. do 2 f_equal; lia.
Qed.
